(** * plugin-mssql: the SQL user-provisioning plugin of scimgateway

    A shallow embedding of [lib/plugin-mssql.js] and the properties of its
    query builders, row mapper, credential decoder and operation handlers.

    Layout
    - [Js]      : JavaScript values as the plugin sees them (immutable request
                  data), truthiness, template-literal conversion, property
                  access, [String.prototype.split], exceptions.
    - [Base64]  : a reference base64 decoder, used to run the credential
                  decoder on concrete headers.
    - [Store]   : the mutable object store holding the static configuration
                  and the per-call connection configuration (aliasing matters
                  there, so objects are locations).
    - [Mssql]   : the tedious client as the plugin drives it: connect, execSql,
                  close, and the connection's life cycle.
    - [Plugin]  : the handlers, translated function by function.
    - the vocabulary of the statements and [Sample], the data of the
      examples.
    - the properties: the filter logic of getUsers, the row mapper, the
      groups, the credential decoder, createUser, modifyUser, the store, the
      connection.
    - further properties: the shape of a call, its rejections, deleteUser,
      createGroup, the defaults, the result of getUsers, the decoder case by
      case, pass-through credentials in the connection configuration, the
      password at start-up. *)

From Stdlib Require Import String Ascii List ZArith Lia Bool DecimalString.
From stdpp Require Import base list strings.

Set Warnings "-register-all".
#[local] Arguments String.append !s1 s2 : simpl nomatch.
Local Open Scope string_scope.
Local Open Scope list_scope.

(* ===================================================================== *)
(** ** JavaScript values *)
(* ===================================================================== *)

Module Js.

(** Primitive values.  Numbers are integers, printed in decimal as the
    engine prints those below 10^21: the plugin never computes with numbers,
    it only tests them for truthiness, copies them (the port of the
    connection configuration) or prints them. *)
Inductive prim : Type :=
  | PUndefined
  | PNull
  | PBool (b : bool)
  | PNum (n : Z)
  | PStr (s : string).

(** Request data (the SCIM objects, the filter descriptor, the request
    context) and results.  An object is its list of own properties; a lookup
    takes the first entry of a key. *)
Inductive jsval : Type :=
  | JPrim (p : prim)
  | JObj (props : list (string * jsval))
  | JArr (elems : list jsval).

Definition obj : Type := list (string * jsval).

Abbreviation JUndefined := (JPrim PUndefined).
Abbreviation JNull := (JPrim PNull).
Abbreviation JBool b := (JPrim (PBool b)).
Abbreviation JStr s := (JPrim (PStr s)).

(** Exceptions.  [TypeError] is what the engine raises on a property access
    on [undefined] or [null] and on [Buffer.from(undefined, ...)],
    [RangeError] what it raises when a recursion exhausts the stack; [Error]
    is what the plugin raises itself with [new Error(message)]. *)
Inductive exn : Type :=
  | Error (message : string)
  | TypeError (message : string)
  | RangeError (message : string).

Definition message (e : exn) : string :=
  match e with Error m | TypeError m | RangeError m => m end.

Inductive result (A : Type) : Type :=
  | Ok (a : A)
  | Throw (e : exn).
Arguments Ok {A} a.
Arguments Throw {A} e.

Definition bind {A B : Type} (m : result A) (k : A -> result B) : result B :=
  match m with
  | Ok a => k a
  | Throw e => Throw e
  end.

Notation "'let!' x ':=' m 'in' k" := (bind m (fun x => k))
  (at level 10, x name, m at level 100, k at level 200).

(** [ToBoolean]. *)
Definition prim_truthy (p : prim) : bool :=
  match p with
  | PUndefined | PNull => false
  | PBool b => b
  | PNum n => negb (Z.eqb n 0)
  | PStr s => negb (String.eqb s "")
  end.

Definition truthy (v : jsval) : bool :=
  match v with
  | JPrim p => prim_truthy p
  | JObj _ | JArr _ => true
  end.

(** [ToString], as a template literal [`${v}`] applies it. *)
Definition prim_to_string (p : prim) : string :=
  match p with
  | PUndefined => "undefined"
  | PNull => "null"
  | PBool true => "true"
  | PBool false => "false"
  | PNum n => NilZero.string_of_int (Z.to_int n)
  | PStr s => s
  end.

Fixpoint to_string (v : jsval) : string :=
  match v with
  | JPrim p => prim_to_string p
  | JObj _ => "[object Object]"
  | JArr elems =>
      String.concat ","
        (map (fun x => match x with
                       | JPrim PUndefined | JPrim PNull => ""
                       | _ => to_string x
                       end) elems)
  end.

(** [v === 'lit'] and [v === undefined]. *)
Definition is_str (v : jsval) (lit : string) : bool :=
  match v with
  | JPrim (PStr s) => String.eqb s lit
  | _ => false
  end.

Definition is_undefined (v : jsval) : bool :=
  match v with
  | JPrim PUndefined => true
  | _ => false
  end.

(** [[...].includes(v)] over an array of string literals. *)
Definition includes (lits : list string) (v : jsval) : bool :=
  existsb (is_str v) lits.

(** Own-property lookup; a missing key reads as [undefined]. *)
Fixpoint assoc (k : string) (props : obj) : jsval :=
  match props with
  | [] => JUndefined
  | (k', v) :: rest => if String.eqb k k' then v else assoc k rest
  end.

(** [o.k = v] on an object. *)
Fixpoint assoc_set (k : string) (v : jsval) (props : obj) : obj :=
  match props with
  | [] => [(k, v)]
  | (k', v') :: rest =>
      if String.eqb k k' then (k, v) :: rest else (k', v') :: assoc_set k v rest
  end.

(** [v.k].  On [undefined] and [null] the engine throws; on an object it is
    the own property.  The keys the plugin reads ([name], [emails], [other],
    [value], [givenName], ...) are on no prototype, so every other value
    reads as [undefined]. *)
Definition get (v : jsval) (k : string) : result jsval :=
  match v with
  | JPrim PUndefined =>
      Throw (TypeError ("Cannot read properties of undefined (reading '" +:+ k +:+ "')"))
  | JPrim PNull =>
      Throw (TypeError ("Cannot read properties of null (reading '" +:+ k +:+ "')"))
  | JObj props => Ok (assoc k props)
  | _ => Ok JUndefined
  end.

(** [v?.k]. *)
Definition opt_get (v : jsval) (k : string) : jsval :=
  match v with
  | JObj props => assoc k props
  | _ => JUndefined
  end.

(** [s.split(sep)] for a separator of one character. *)
Fixpoint split (sep : ascii) (s : string) : list string :=
  match s with
  | EmptyString => [""]
  | String c rest =>
      if Ascii.eqb c sep then "" :: split sep rest
      else match split sep rest with
           | [] => [String c ""]
           | h :: t => String c h :: t
           end
  end.

(** [const [a, b] = arr]: the element at an index, [undefined] beyond the
    end. *)
Definition item (arr : list string) (i : nat) : prim :=
  match nth_error arr i with
  | Some s => PStr s
  | None => PUndefined
  end.

(** [s.substr(0, s.length - 1)]; a negative length gives the empty string. *)
Definition drop_last (s : string) : string :=
  substring 0 (String.length s - 1) s.

End Js.
Import Js.


(* ===================================================================== *)
(** ** Base64 *)
(* ===================================================================== *)

(** A reference decoder for [Buffer.from(token, 'base64').toString()] on
    tokens whose payload is 7-bit text: characters outside the alphabet are
    skipped, decoding stops at the padding, and both the standard and the
    URL-safe alphabet are read.  The handlers below do not depend on it: they
    take the decoder as a parameter; this one runs them on concrete
    headers. *)
Module Base64.

Definition sextet (c : ascii) : option N :=
  let n := N_of_ascii c in
  if (65 <=? n)%N && (n <=? 90)%N then Some (n - 65)%N
  else if (97 <=? n)%N && (n <=? 122)%N then Some (n - 71)%N
  else if (48 <=? n)%N && (n <=? 57)%N then Some (n + 4)%N
  else if (n =? 43)%N || (n =? 45)%N then Some 62%N
  else if (n =? 47)%N || (n =? 95)%N then Some 63%N
  else None.

Fixpoint sextets (s : string) : list N :=
  match s with
  | EmptyString => []
  | String c rest =>
      if Ascii.eqb c "=" then []
      else match sextet c with
           | Some n => n :: sextets rest
           | None => sextets rest
           end
  end.

Fixpoint octets (l : list N) : list N :=
  match l with
  | a :: b :: c :: d :: rest =>
      (a * 4 + b / 16)%N :: ((b mod 16) * 16 + c / 4)%N :: ((c mod 4) * 64 + d)%N
        :: octets rest
  | [a; b; c] => [(a * 4 + b / 16)%N; ((b mod 16) * 16 + c / 4)%N]
  | [a; b] => [(a * 4 + b / 16)%N]
  | _ => []
  end.

Definition decode (s : string) : string :=
  string_of_list_ascii (map ascii_of_N (octets (sextets s))).

End Base64.


(* ===================================================================== *)
(** ** The object store *)
(* ===================================================================== *)

(** The static configuration is one object graph shared by every call, and
    each handler works on a copy that it mutates.  Objects of that kind live
    in a store: a value is a primitive or the location of an object, and two
    values with the same location are the same object. *)
Module Store.

Abbreviation loc := nat.

Inductive hval : Type :=
  | HPrim (p : prim)
  | HRef (l : loc).

Abbreviation hobj := (list (string * hval)).
Abbreviation heap := (list (list (string * hval))).

Definition hval_truthy (v : hval) : bool :=
  match v with
  | HPrim p => prim_truthy p
  | HRef _ => true
  end.

Fixpoint field (k : string) (o : hobj) : hval :=
  match o with
  | [] => HPrim PUndefined
  | (k', v) :: rest => if String.eqb k k' then v else field k rest
  end.

Fixpoint field_set (k : string) (v : hval) (o : hobj) : hobj :=
  match o with
  | [] => [(k, v)]
  | (k', v') :: rest =>
      if String.eqb k k' then (k, v) :: rest else (k', v') :: field_set k v rest
  end.

(** The object at a location; a location outside the store has no
    properties. *)
Definition deref (h : heap) (l : loc) : hobj := default [] (h !! l).

(** [{}] or an object literal: a new object at the next free location. *)
Definition alloc (h : heap) (o : hobj) : heap * hval :=
  (h ++ [o], HRef (length h)).

(** [v.k] *)
Definition read (h : heap) (v : hval) (k : string) : result hval :=
  match v with
  | HPrim PUndefined =>
      Throw (TypeError ("Cannot read properties of undefined (reading '" +:+ k +:+ "')"))
  | HPrim PNull =>
      Throw (TypeError ("Cannot read properties of null (reading '" +:+ k +:+ "')"))
  | HPrim _ => Ok (HPrim PUndefined)
  | HRef l => Ok (field k (deref h l))
  end.

(** [v.k = x].  The file is in strict mode, where an assignment to a
    property of a primitive throws. *)
Definition write (h : heap) (v : hval) (k : string) (x : hval) : result heap :=
  match v with
  | HPrim PUndefined =>
      Throw (TypeError ("Cannot set properties of undefined (setting '" +:+ k +:+ "')"))
  | HPrim PNull =>
      Throw (TypeError ("Cannot set properties of null (setting '" +:+ k +:+ "')"))
  | HPrim p =>
      Throw (TypeError ("Cannot create property '" +:+ k +:+ "' on " +:+ prim_to_string p))
  | HRef l => Ok (alter (field_set k x) l h)
  end.

(** Modelled from the spec: the loop of [copyObj] over the properties of an
    object, each value copied by [copy]. *)
Fixpoint copy_props (copy : heap -> hval -> option (heap * hval))
    (ps : hobj) (h : heap) : option (heap * hobj) :=
  match ps with
  | [] => Some (h, [])
  | (k, x) :: rest =>
      match copy h x with
      | None => None
      | Some (h1, x') =>
          match copy_props copy rest h1 with
          | None => None
          | Some (h2, rest') => Some (h2, (k, x') :: rest')
          end
      end
  end.

(** Modelled from the spec: the recursion of [copyObj].  A primitive is its
    own copy, and every object reached from [v] is copied to a new location.
    [fuel] bounds the depth of the recursion. *)
Fixpoint copy_rec (fuel : nat) (h : heap) (v : hval) : option (heap * hval) :=
  match v with
  | HPrim p => Some (h, HPrim p)
  | HRef l =>
      match fuel with
      | 0 => None
      | S fuel' =>
          match copy_props (copy_rec fuel') (deref h l) h with
          | None => None
          | Some (h', o') => Some (alloc h' o')
          end
      end
  end.

(** Modelled from the spec: [scimgateway.copyObj] belongs to the gateway
    runtime, which is not part of the plugin source.  The spec calls the
    connection configuration a "mutable copy of static config" and says the
    builder "never mutates the shared static configuration object (always
    operates on a copy)"; that holds of a copy that shares no object with
    its source, so the model is the deep copy.  A graph nested deeper than
    the store has objects is cyclic, and the copy of a cyclic graph
    exhausts the stack. *)
Definition copyObj (h : heap) (v : hval) : result (heap * hval) :=
  match copy_rec (S (length h)) h v with
  | Some r => Ok r
  | None => Throw (RangeError "Maximum call stack size exceeded")
  end.

(** Store-passing computations that may throw; the store is kept on both
    exits. *)
Definition M (A : Type) : Type := heap -> heap * result A.

Definition ret {A : Type} (a : A) : M A := fun h => (h, Ok a).

Definition seq {A B : Type} (m : M A) (k : A -> M B) : M B :=
  fun h =>
    match m h with
    | (h', Ok a) => k a h'
    | (h', Throw e) => (h', Throw e)
    end.

Notation "'let*' x ':=' m 'in' k" := (seq m (fun x => k))
  (at level 10, x name, m at level 100, k at level 200).

Definition lift {A : Type} (r : result A) : M A := fun h => (h, r).

Definition m_read (v : hval) (k : string) : M hval :=
  fun h => (h, read h v k).

Definition m_write (v : hval) (k : string) (x : hval) : M unit :=
  fun h =>
    match write h v k x with
    | Ok h' => (h', Ok tt)
    | Throw e => (h, Throw e)
    end.

Definition m_alloc (o : hobj) : M hval :=
  fun h => let (h', r) := alloc h o in (h', Ok r).

Definition m_copyObj (v : hval) : M hval :=
  fun h =>
    match copyObj h v with
    | Ok (h', r) => (h', Ok r)
    | Throw e => (h, Throw e)
    end.

End Store.
Import Store.

(* ===================================================================== *)
(** ** The SQL client *)
(* ===================================================================== *)

(** The tedious [Connection] as the handlers use it.  The server decides
    whether the connection is established and what a statement returns; a
    handler is then a function of the server's answers, and the calls it
    makes on its connection are recorded in order. *)
Module Mssql.

(** A row of table [User]: for each column the [value] of the column
    object ([rows[row].UserID.value], ...). *)
Record row : Type := {
  UserID : jsval;
  Enabled : jsval;
  Password : jsval;
  FirstName : jsval;
  MiddleName : jsval;
  LastName : jsval;
  Email : jsval;
  MobilePhone : jsval
}.

(** What the [Request] callback receives: [err], or the rows. *)
Inductive reply : Type :=
  | Failed (err_message : string)
  | Rows (rows : list row).

(** The server: the [err] of the ['connect'] event ([None] when the
    connection is established) and the reply to a statement. *)
Record server : Type := {
  connect_error : option string;
  exec : string -> reply
}.

(** The effects of one handler call, in the order of the source:
    [new Connection(cfg)], [connection.connect()], [connection.execSql] of a
    request for a statement, [connection.close()], and the point where the
    outcome of the call is decided ([resolve], [reject], a [return] or a
    [throw]). *)
Inductive event : Type :=
  | NewConnection (cfg : hval)
  | Connect
  | ExecSql (sqlQuery : string)
  | Close
  | Settle.

(** The life cycle of a connection.  It is open from the moment the server
    accepts it until [close()]; when the server refuses it, it is never
    opened. *)
Inductive conn_state : Type :=
  | NoConnection
  | Idle
  | Open
  | Refused
  | Closed.

Definition step (srv : server) (s : conn_state) (e : event) : conn_state :=
  match e, s with
  | NewConnection _, NoConnection => Idle
  | Connect, Idle =>
      match connect_error srv with
      | None => Open
      | Some _ => Refused
      end
  | Close, Open => Closed
  | _, _ => s
  end.

(** The state of the connection at each [Settle] of a trace. *)
Fixpoint states_at_settle (srv : server) (s : conn_state) (es : list event) : list conn_state :=
  match es with
  | [] => []
  | Settle :: rest => s :: states_at_settle srv s rest
  | e :: rest => states_at_settle srv (step srv s e) rest
  end.

End Mssql.
Import Mssql.

(* ===================================================================== *)
(** ** The plugin *)
(* ===================================================================== *)

Module Plugin.

(** How a handler's promise ends. *)
Inductive outcome : Type :=
  | Resolved (v : jsval)
  | Rejected (e : exn).

(** One call of a handler: the store it leaves, the effects on its
    connection in order, and its outcome.  Logging is left out. *)
Record run : Type := {
  store_after : heap;
  trace : list event;
  outcome_of : outcome
}.

(** The [catch] of every handler: [throw new Error(`${action} error: ${err.message}`)]. *)
Definition rethrow (action : string) (e : exn) : exn :=
  Error (action +:+ " error: " +:+ message e).

(** [`'${v}'`] *)
Definition quoted (v : jsval) : string := "'" +:+ to_string v +:+ "'".

Definition newline : string := String (ascii_of_nat 10) "".

Section Handlers.

(** [Buffer.from(token, 'base64').toString()], a function of the runtime. *)
Variable base64_text : string -> string.

(** The SQL server the plugin talks to. *)
Variable srv : server.

(** The module variable [config]: the endpoint configuration, an object of
    the store. *)
Variable config : hval.

(** [ctx?.request?.header?.authorization] *)
Definition authorization (ctx : jsval) : jsval :=
  opt_get (opt_get (opt_get ctx "request") "header") "authorization".

(** lines 468-475 *)
Definition getCtxAuth (ctx : jsval) : result (prim * prim) :=
  if negb (truthy (authorization ctx)) then Ok (PUndefined, PUndefined)
  else
    let! parts :=
      match authorization ctx with
      | JStr s => Ok (split " " s)
      | _ => Throw (TypeError "(ctx.request.header.authorization || '').split is not a function")
      end in
    let authType := item parts 0 in
    let authToken := item parts 1 in
    let! up :=
      match authType with
      | PStr "Basic" =>
          match authToken with
          | PStr token =>
              let fields := split ":" (base64_text token) in
              Ok (item fields 0, item fields 1)
          | _ =>
              Throw (TypeError "The first argument must be of type string or an instance of Buffer, ArrayBuffer, or Array or an Array-like Object.")
          end
      | _ => Ok (PUndefined, PUndefined)
      end in
    let username := fst up in
    let password := snd up in
    if prim_truthy username then Ok (username, password)
    else Ok (PUndefined, authToken).

(** The block that every handler with a connection repeats word for word
    (lines 111-119, 186-194, 232-240, 310-318, 403-411): the per-call
    connection configuration. *)
Definition connectionCfg (ctx : jsval) : M hval :=
  let* connection := m_read config "connection" in
  let* connectionCfg := m_copyObj connection in
  if truthy (authorization ctx) then
    let* a := m_read connectionCfg "authentication" in
    let* _ :=
      (if negb (hval_truthy a) then
         let* o := m_alloc [] in m_write connectionCfg "authentication" o
       else ret tt) in
    let* a := m_read connectionCfg "authentication" in
    let* t := m_read a "type" in
    let* _ :=
      (if negb (hval_truthy t) then
         let* a := m_read connectionCfg "authentication" in
         m_write a "type" (HPrim (PStr "default"))
       else ret tt) in
    let* a := m_read connectionCfg "authentication" in
    let* o := m_read a "options" in
    let* _ :=
      (if negb (hval_truthy o) then
         let* a := m_read connectionCfg "authentication" in
         let* o := m_alloc [] in m_write a "options" o
       else ret tt) in
    let* up := lift (getCtxAuth ctx) in
    let username := fst up in
    let password := snd up in
    let* a := m_read connectionCfg "authentication" in
    let* o := m_read a "options" in
    let* _ := m_write o "password" (HPrim password) in
    let* _ :=
      (if prim_truthy username then
         let* a := m_read connectionCfg "authentication" in
         let* o := m_read a "options" in
         m_write o "userName" (HPrim username)
       else ret tt) in
    ret connectionCfg
  else ret connectionCfg.

(* ------------------------------------------------------------------- *)
(** *** getUsers *)

(** lines 82-102: the filter logic *)
Definition getUsers_sqlQuery (getObj : obj) : result string :=
  let action := "getUsers" in
  let operator := assoc "operator" getObj in
  let attribute := assoc "attribute" getObj in
  let rawFilter := assoc "rawFilter" getObj in
  let! sqlQuery :=
    if truthy operator then
      if is_str operator "eq" && includes ["id"; "userName"; "externalId"] attribute then
        Ok ("select * from [User] where UserID = '" +:+ to_string (assoc "value" getObj) +:+ "'")
      else if is_str operator "eq" && is_str attribute "group.value" then
        Throw (Error (action +:+ " error: not supporting groups member of user filtering: "
                        +:+ to_string rawFilter))
      else
        Throw (Error (action +:+ " error: not supporting simpel filtering: "
                        +:+ to_string rawFilter))
    else if truthy rawFilter then
      Throw (Error (action +:+ " not error: supporting advanced filtering: "
                      +:+ to_string rawFilter))
    else Ok "select * from [User]" in
  if negb (truthy (JStr sqlQuery)) then
    Throw (Error (action +:+ " error: mandatory if-else logic not fully implemented"))
  else Ok sqlQuery.

(** lines 135-147: a row as a SCIM user *)
Definition scimUser (r : row) : jsval :=
  JObj [
    ("id", if truthy (UserID r) then UserID r else JUndefined);
    ("userName", if truthy (UserID r) then UserID r else JUndefined);
    ("externalId", if truthy (UserID r) then UserID r else JUndefined);
    ("active", JBool (is_str (Enabled r) "true" || false));
    ("name", JObj [
       ("givenName", if truthy (FirstName r) then FirstName r else JUndefined);
       ("middleName", if truthy (MiddleName r) then MiddleName r else JUndefined);
       ("familyName", if truthy (LastName r) then LastName r else JUndefined)
     ]);
    ("phoneNumbers",
       if truthy (MobilePhone r)
       then JArr [JObj [("type", JStr "other"); ("value", MobilePhone r)]]
       else JUndefined);
    ("emails",
       if truthy (Email r)
       then JArr [JObj [("type", JStr "other"); ("value", Email r)]]
       else JUndefined)
  ].

Definition getUsers (baseEntity : jsval) (getObj : obj) (attributes ctx : jsval)
    (h : heap) : run :=
  let action := "getUsers" in
  match getUsers_sqlQuery getObj with
  | Throw e => {| store_after := h; trace := [Settle]; outcome_of := Rejected e |}
  | Ok sqlQuery =>
      match connectionCfg ctx h with
      | (h', Throw e) =>
          {| store_after := h'; trace := [Settle];
             outcome_of := Rejected (rethrow action e) |}
      | (h', Ok cfg) =>
          match connect_error srv with
          | Some err =>
              {| store_after := h';
                 trace := [NewConnection cfg; Connect; Settle];
                 outcome_of := Rejected (rethrow action
                   (Error ("exploreUsers MSSQL client connect error: " +:+ err))) |}
          | None =>
              match exec srv sqlQuery with
              | Failed err =>
                  {| store_after := h';
                     trace := [NewConnection cfg; Connect; ExecSql sqlQuery; Close; Settle];
                     outcome_of := Rejected (rethrow action
                       (Error ("exploreUsers MSSQL client request: " +:+ sqlQuery
                                 +:+ " Error: " +:+ err))) |}
              | Rows rows =>
                  {| store_after := h';
                     trace := [NewConnection cfg; Connect; ExecSql sqlQuery; Close; Settle];
                     outcome_of := Resolved (JObj [
                       ("Resources", JArr (map scimUser rows));
                       ("totalResults", JNull)]) |}
              end
          end
      end
  end.

(* ------------------------------------------------------------------- *)
(** *** createUser *)

(** lines 171-173 (and 276-278, 393-395): the containers a handler
    dereferences, defaulted on the input object. *)
Definition defaults (o : obj) : obj :=
  let o := if negb (truthy (assoc "name" o)) then assoc_set "name" (JObj []) o else o in
  let o := if negb (truthy (assoc "emails" o))
           then assoc_set "emails" (JObj [("other", JObj [])]) o else o in
  let o := if negb (truthy (assoc "phoneNumbers" o))
           then assoc_set "phoneNumbers" (JObj [("other", JObj [])]) o else o in
  o.

(** The object [insert] of lines 175-184: each member is a quoted literal
    or [null]. *)
Record insert_values : Type := {
  ins_UserID : jsval;
  ins_Enabled : jsval;
  ins_Password : jsval;
  ins_FirstName : jsval;
  ins_MiddleName : jsval;
  ins_LastName : jsval;
  ins_MobilePhone : jsval;
  ins_Email : jsval
}.

(** [(v) ? `'${v}'` : null] *)
Definition quoted_or_null (v : jsval) : jsval :=
  if truthy v then JStr (quoted v) else JNull.

Definition createUser_insert (userObj : obj) : result insert_values :=
  let UserID := JStr (quoted (assoc "externalId" userObj)) in
  let Enabled :=
    if truthy (assoc "active" userObj) then JStr (quoted (assoc "active" userObj))
    else JStr "'false'" in
  let Password := quoted_or_null (assoc "password" userObj) in
  let! givenName := get (assoc "name" userObj) "givenName" in
  let! middleName := get (assoc "name" userObj) "middleName" in
  let! familyName := get (assoc "name" userObj) "familyName" in
  let! phone_other := get (assoc "phoneNumbers" userObj) "other" in
  let! phone := get phone_other "value" in
  let! emails_other := get (assoc "emails" userObj) "other" in
  let! email := get emails_other "value" in
  Ok {| ins_UserID := UserID;
        ins_Enabled := Enabled;
        ins_Password := Password;
        ins_FirstName := quoted_or_null givenName;
        ins_MiddleName := quoted_or_null middleName;
        ins_LastName := quoted_or_null familyName;
        ins_MobilePhone := quoted_or_null phone;
        ins_Email := quoted_or_null email |}.

(** lines 202-203 *)
Definition createUser_sqlQuery (insert : insert_values) : string :=
  "insert into [User] (UserID, Enabled, Password, FirstName, MiddleName, LastName, Email, MobilePhone)"
  +:+ newline +:+ "                values ("
  +:+ to_string (ins_UserID insert) +:+ ", "
  +:+ to_string (ins_Enabled insert) +:+ ", "
  +:+ to_string (ins_Password insert) +:+ ", "
  +:+ to_string (ins_FirstName insert) +:+ ", "
  +:+ to_string (ins_MiddleName insert) +:+ ", "
  +:+ to_string (ins_LastName insert) +:+ ", "
  +:+ to_string (ins_Email insert) +:+ ", "
  +:+ to_string (ins_MobilePhone insert) +:+ ")".

Definition createUser (baseEntity : jsval) (userObj : obj) (ctx : jsval)
    (h : heap) : run :=
  let action := "createUser" in
  let userObj := defaults userObj in
  match createUser_insert userObj with
  | Throw e =>
      {| store_after := h; trace := [Settle]; outcome_of := Rejected (rethrow action e) |}
  | Ok insert =>
      match connectionCfg ctx h with
      | (h', Throw e) =>
          {| store_after := h'; trace := [Settle];
             outcome_of := Rejected (rethrow action e) |}
      | (h', Ok cfg) =>
          match connect_error srv with
          | Some err =>
              {| store_after := h';
                 trace := [NewConnection cfg; Connect; Settle];
                 outcome_of := Rejected (rethrow action
                   (Error ("createUser MSSQL client connect error: " +:+ err))) |}
          | None =>
              let sqlQuery := createUser_sqlQuery insert in
              match exec srv sqlQuery with
              | Failed err =>
                  {| store_after := h';
                     trace := [NewConnection cfg; Connect; ExecSql sqlQuery; Close; Settle];
                     outcome_of := Rejected (rethrow action
                       (Error ("createUser MSSQL client request: " +:+ sqlQuery
                                 +:+ " error: " +:+ err))) |}
              | Rows _ =>
                  {| store_after := h';
                     trace := [NewConnection cfg; Connect; ExecSql sqlQuery; Close; Settle];
                     outcome_of := Resolved JNull |}
              end
          end
      end
  end.

(* ------------------------------------------------------------------- *)
(** *** deleteUser *)

Definition deleteUser (baseEntity id ctx : jsval) (h : heap) : run :=
  let action := "deleteUser" in
  match connectionCfg ctx h with
  | (h', Throw e) =>
      {| store_after := h'; trace := [Settle];
         outcome_of := Rejected (rethrow action e) |}
  | (h', Ok cfg) =>
      match connect_error srv with
      | Some err =>
          {| store_after := h';
             trace := [NewConnection cfg; Connect; Settle];
             outcome_of := Rejected (rethrow action
               (Error ("deleteUser MSSQL client connect error: " +:+ err))) |}
      | None =>
          let sqlQuery := "delete from [User] where UserID = '" +:+ to_string id +:+ "'" in
          match exec srv sqlQuery with
          | Failed err =>
              {| store_after := h';
                 trace := [NewConnection cfg; Connect; ExecSql sqlQuery; Close; Settle];
                 outcome_of := Rejected (rethrow action
                   (Error ("deleteUser MSSQL client request: " +:+ sqlQuery
                             +:+ " error: " +:+ err))) |}
          | Rows _ =>
              {| store_after := h';
                 trace := [NewConnection cfg; Connect; ExecSql sqlQuery; Close; Settle];
                 outcome_of := Resolved JNull |}
          end
      end
  end.

(* ------------------------------------------------------------------- *)
(** *** modifyUser *)

(** lines 280-308: the assignments of the [set] clause *)
Definition modifyUser_sql (attrObj : obj) : result string :=
  let sql := "" in
  let active := assoc "active" attrObj in
  let sql :=
    if negb (is_undefined active) then sql +:+ "Enabled='" +:+ to_string active +:+ "',"
    else sql in
  let password := assoc "password" attrObj in
  let sql :=
    if negb (is_undefined password) then
      if is_str password "" then sql +:+ "Password=null,"
      else sql +:+ "Password='" +:+ to_string password +:+ "',"
    else sql in
  let! givenName := get (assoc "name" attrObj) "givenName" in
  let sql :=
    if negb (is_undefined givenName) then
      if is_str givenName "" then sql +:+ "FirstName=null,"
      else sql +:+ "FirstName='" +:+ to_string givenName +:+ "',"
    else sql in
  let! middleName := get (assoc "name" attrObj) "middleName" in
  let sql :=
    if negb (is_undefined middleName) then
      if is_str middleName "" then sql +:+ "MiddleName=null,"
      else sql +:+ "MiddleName='" +:+ to_string middleName +:+ "',"
    else sql in
  let! familyName := get (assoc "name" attrObj) "familyName" in
  let sql :=
    if negb (is_undefined familyName) then
      if is_str familyName "" then sql +:+ "LastName=null,"
      else sql +:+ "LastName='" +:+ to_string familyName +:+ "',"
    else sql in
  let! phone_other := get (assoc "phoneNumbers" attrObj) "other" in
  let! phone := get phone_other "value" in
  let sql :=
    if negb (is_undefined phone) then
      if is_str phone "" then sql +:+ "MobilePhone=null,"
      else sql +:+ "MobilePhone='" +:+ to_string phone +:+ "',"
    else sql in
  let! emails_other := get (assoc "emails" attrObj) "other" in
  let! email := get emails_other "value" in
  let sql :=
    if negb (is_undefined email) then
      if is_str email "" then sql +:+ "Email=null,"
      else sql +:+ "Email='" +:+ to_string email +:+ "',"
    else sql in
  Ok (drop_last sql).

(** line 326 *)
Definition modifyUser_sqlQuery (id : jsval) (sql : string) : string :=
  "update [User] set " +:+ sql +:+ " where UserID like '" +:+ to_string id +:+ "'".

Definition modifyUser (baseEntity id : jsval) (attrObj : obj) (ctx : jsval)
    (h : heap) : run :=
  let action := "modifyUser" in
  let attrObj := defaults attrObj in
  match modifyUser_sql attrObj with
  | Throw e =>
      {| store_after := h; trace := [Settle]; outcome_of := Rejected (rethrow action e) |}
  | Ok sql =>
      match connectionCfg ctx h with
      | (h', Throw e) =>
          {| store_after := h'; trace := [Settle];
             outcome_of := Rejected (rethrow action e) |}
      | (h', Ok cfg) =>
          match connect_error srv with
          | Some err =>
              {| store_after := h';
                 trace := [NewConnection cfg; Connect; Settle];
                 outcome_of := Rejected (rethrow action
                   (Error ("modifyUser MSSQL client connect error: " +:+ err))) |}
          | None =>
              let sqlQuery := modifyUser_sqlQuery id sql in
              match exec srv sqlQuery with
              | Failed err =>
                  {| store_after := h';
                     trace := [NewConnection cfg; Connect; ExecSql sqlQuery; Close; Settle];
                     outcome_of := Rejected (rethrow action
                       (Error ("modifyUser MSSQL client request: " +:+ sqlQuery
                                 +:+ " error: " +:+ err))) |}
              | Rows _ =>
                  {| store_after := h';
                     trace := [NewConnection cfg; Connect; ExecSql sqlQuery; Close; Settle];
                     outcome_of := Resolved JNull |}
              end
          end
      end
  end.

(* ------------------------------------------------------------------- *)
(** *** Groups *)

(** lines 365-381: every branch of the filter logic is empty. *)
Definition getGroups (baseEntity : jsval) (getObj : obj) (attributes ctx : jsval)
    (h : heap) : run :=
  let operator := assoc "operator" getObj in
  let attribute := assoc "attribute" getObj in
  let rawFilter := assoc "rawFilter" getObj in
  let _ : unit :=
    if truthy operator then
      if is_str operator "eq" && includes ["id"; "displayName"; "externalId"] attribute then tt
      else if is_str operator "eq" && is_str attribute "members.value" then tt
      else tt
    else if truthy rawFilter then tt
    else tt in
  {| store_after := h; trace := [Settle];
     outcome_of := Resolved (JObj [("Resources", JArr [])]) |}.

(** lines 397-401 *)
Record group_values : Type := {
  ins_GroupID : jsval;
  ins_DisplayName : jsval;
  ins_Members : jsval
}.

Definition createGroup_insert (groupObj : obj) : group_values :=
  {| ins_GroupID := JStr (quoted (assoc "externalId" groupObj));
     ins_DisplayName := quoted_or_null (assoc "displayName" groupObj);
     ins_Members :=
       if truthy (assoc "Memberse" groupObj) then JStr (quoted (assoc "members" groupObj))
       else JNull |}.

(** lines 419-420 *)
Definition createGroup_sqlQuery (insert : group_values) : string :=
  "insert into [Group] (GroupID, DisplayName)"
  +:+ newline +:+ "                values ("
  +:+ to_string (ins_GroupID insert) +:+ ", "
  +:+ to_string (ins_DisplayName insert) +:+ ")".

Definition createGroup (baseEntity : jsval) (groupObj : obj) (ctx : jsval)
    (h : heap) : run :=
  let action := "createGroup" in
  let groupObj := defaults groupObj in
  let insert := createGroup_insert groupObj in
  match connectionCfg ctx h with
  | (h', Throw e) =>
      {| store_after := h'; trace := [Settle];
         outcome_of := Rejected (rethrow action e) |}
  | (h', Ok cfg) =>
      match connect_error srv with
      | Some err =>
          {| store_after := h';
             trace := [NewConnection cfg; Connect; Settle];
             outcome_of := Rejected (rethrow action
               (Error ("createGroup MSSQL client connect error: " +:+ err))) |}
      | None =>
          let sqlQuery := createGroup_sqlQuery insert in
          match exec srv sqlQuery with
          | Failed err =>
              {| store_after := h';
                 trace := [NewConnection cfg; Connect; ExecSql sqlQuery; Close; Settle];
                 outcome_of := Rejected (rethrow action
                   (Error ("createGroup MSSQL client request: " +:+ sqlQuery
                             +:+ " error: " +:+ err))) |}
          | Rows _ =>
              {| store_after := h';
                 trace := [NewConnection cfg; Connect; ExecSql sqlQuery; Close; Settle];
                 outcome_of := Resolved JNull |}
          end
      end
  end.

(** lines 446-450 *)
Definition deleteGroup (baseEntity id ctx : jsval) (h : heap) : run :=
  let action := "deleteGroup" in
  {| store_after := h; trace := [Settle];
     outcome_of := Rejected (Error (action +:+ " error: " +:+ action +:+ " is not supported")) |}.

(** lines 455-459 *)
Definition modifyGroup (baseEntity id : jsval) (attrObj : obj) (ctx : jsval)
    (h : heap) : run :=
  let action := "modifyGroup" in
  {| store_after := h; trace := [Settle];
     outcome_of := Rejected (Error (action +:+ " error: " +:+ action +:+ " is not supported")) |}.

End Handlers.

End Plugin.
Import Plugin.

(* ===================================================================== *)
(** ** Vocabulary of the statements *)
(* ===================================================================== *)

(** The statements a run sent to the server. *)
Definition queries (tr : list event) : list string :=
  flat_map (fun e => match e with ExecSql q => [q] | _ => [] end) tr.

(** The three rejections of the filter logic of [getUsers]. *)
Definition unsupported_filter (getObj : obj) (e : exn) : Prop :=
  let raw := to_string (assoc "rawFilter" getObj) in
  e = Error ("getUsers error: not supporting groups member of user filtering: " +:+ raw)
  \/ e = Error ("getUsers error: not supporting simpel filtering: " +:+ raw)
  \/ e = Error ("getUsers not error: supporting advanced filtering: " +:+ raw).

(** A member [x] of a SCIM user mapped from a column: the value [v] when
    the column is present (not null, not empty), [undefined] otherwise. *)
Definition when_present (column v x : jsval) : Prop :=
  (truthy column = true -> x = v) /\ (truthy column = false -> x = JUndefined).

(** [[{ type: 'other', value: v }]] *)
Definition other_entry (v : jsval) : jsval :=
  JArr [JObj [("type", JStr "other"); ("value", v)]].

(** [undefined] or [null]: the values a property access throws on. *)
Definition nullish (v : jsval) : bool :=
  match v with
  | JPrim PUndefined | JPrim PNull => true
  | _ => false
  end.

(** A container ([emails], [phoneNumbers]) whose [other] entry can be
    dereferenced: the container is missing (and then defaulted), or its
    [other] is neither undefined nor null. *)
Definition has_other (container : jsval) : bool :=
  negb (truthy container) || negb (nullish (opt_get container "other")).

Definition deref_ok (o : obj) : bool :=
  has_other (assoc "phoneNumbers" o) && has_other (assoc "emails" o).

(** [container?.other?.value] *)
Definition other_value (container : jsval) : jsval :=
  opt_get (opt_get container "other") "value".

(** The SQL text of an optional value of an insert: the quoted literal, or
    NULL when the value is absent. *)
Definition sql_literal (v : jsval) : string :=
  if truthy v then quoted v else "null".

(** The SQL text of Enabled in an insert. *)
Definition enabled_literal (active : jsval) : string :=
  if truthy active then quoted active else "'false'".

(** The insert into table User over its eight columns. *)
Definition insert_statement (values : list string) : string :=
  "insert into [User] (UserID, Enabled, Password, FirstName, MiddleName, LastName, Email, MobilePhone)"
  +:+ newline +:+ "                values (" +:+ String.concat ", " values +:+ ")".

(** The column assignment of an attribute of a patch: none when the
    attribute is not given, NULL for the empty string, the quoted literal
    otherwise. *)
Definition assignment (column : string) (v : jsval) : list string :=
  if is_undefined v then []
  else if is_str v "" then [column +:+ "=null"]
  else [column +:+ "=" +:+ quoted v].

(** The assignment of Enabled: the quoted literal of whatever is given. *)
Definition enabled_assignment (active : jsval) : list string :=
  if is_undefined active then [] else ["Enabled=" +:+ quoted active].

(** The assignments of a patch, in the order of the source. *)
Definition set_clause (attrObj : obj) : list string :=
  enabled_assignment (assoc "active" attrObj)
  ++ assignment "Password" (assoc "password" attrObj)
  ++ assignment "FirstName" (opt_get (assoc "name" attrObj) "givenName")
  ++ assignment "MiddleName" (opt_get (assoc "name" attrObj) "middleName")
  ++ assignment "LastName" (opt_get (assoc "name" attrObj) "familyName")
  ++ assignment "MobilePhone" (other_value (assoc "phoneNumbers" attrObj))
  ++ assignment "Email" (other_value (assoc "emails" attrObj)).

(** The assignments as the specification words them: the empty-string
    rule applied to each of the seven attributes, active included. *)
Definition set_clause_as_specified (attrObj : obj) : list string :=
  assignment "Enabled" (assoc "active" attrObj)
  ++ assignment "Password" (assoc "password" attrObj)
  ++ assignment "FirstName" (opt_get (assoc "name" attrObj) "givenName")
  ++ assignment "MiddleName" (opt_get (assoc "name" attrObj) "middleName")
  ++ assignment "LastName" (opt_get (assoc "name" attrObj) "familyName")
  ++ assignment "MobilePhone" (other_value (assoc "phoneNumbers" attrObj))
  ++ assignment "Email" (other_value (assoc "emails" attrObj)).

(** The attributes a patch gives (those that are not [undefined]). *)
Definition given_attributes (attrObj : obj) : list jsval :=
  filter (fun v => is_undefined v = false)
    [ assoc "active" attrObj;
      assoc "password" attrObj;
      opt_get (assoc "name" attrObj) "givenName";
      opt_get (assoc "name" attrObj) "middleName";
      opt_get (assoc "name" attrObj) "familyName";
      other_value (assoc "phoneNumbers" attrObj);
      other_value (assoc "emails" attrObj) ].

(** The update: assignments separated by commas, and the row selected by a
    LIKE comparison of UserID with the id. *)
Definition update_statement (id : jsval) (assignments : list string) : string :=
  "update [User] set " +:+ String.concat "," assignments
  +:+ " where UserID like " +:+ quoted id.

(** Assignments each followed by a comma, as the source accumulates them. *)
Fixpoint trailing_commas (l : list string) : string :=
  match l with
  | [] => ""
  | x :: rest => x +:+ "," +:+ trailing_commas rest
  end.

(** The [other] entry a handler reads after the defaults. *)
Definition other_of (container : jsval) : jsval :=
  if truthy container then opt_get container "other" else JObj [].

(** One step of the accumulation of [sql] in modifyUser, for a column with
    the empty-string rule, and the step of Enabled. *)
Definition assign_step (column : string) (sql : string) (v : jsval) : string :=
  if negb (is_undefined v) then
    if is_str v "" then sql +:+ (column +:+ "=null,")
    else sql +:+ (column +:+ "='") +:+ to_string v +:+ "',"
  else sql.

Definition enabled_step (sql : string) (active : jsval) : string :=
  if negb (is_undefined active) then sql +:+ "Enabled='" +:+ to_string active +:+ "',"
  else sql.

(** A call of the plugin: a handler and its arguments. *)
Inductive request : Type :=
  | GetUsers (baseEntity : jsval) (getObj : obj) (attributes ctx : jsval)
  | CreateUser (baseEntity : jsval) (userObj : obj) (ctx : jsval)
  | DeleteUser (baseEntity id ctx : jsval)
  | ModifyUser (baseEntity id : jsval) (attrObj : obj) (ctx : jsval)
  | GetGroups (baseEntity : jsval) (getObj : obj) (attributes ctx : jsval)
  | CreateGroup (baseEntity : jsval) (groupObj : obj) (ctx : jsval)
  | DeleteGroup (baseEntity id ctx : jsval)
  | ModifyGroup (baseEntity id : jsval) (attrObj : obj) (ctx : jsval).

Definition handle (base64_text : string -> string) (srv : server) (config : hval)
    (rq : request) (h : heap) : run :=
  match rq with
  | GetUsers baseEntity getObj attributes ctx =>
      getUsers base64_text srv config baseEntity getObj attributes ctx h
  | CreateUser baseEntity userObj ctx =>
      createUser base64_text srv config baseEntity userObj ctx h
  | DeleteUser baseEntity id ctx =>
      deleteUser base64_text srv config baseEntity id ctx h
  | ModifyUser baseEntity id attrObj ctx =>
      modifyUser base64_text srv config baseEntity id attrObj ctx h
  | GetGroups baseEntity getObj attributes ctx =>
      getGroups baseEntity getObj attributes ctx h
  | CreateGroup baseEntity groupObj ctx =>
      createGroup base64_text srv config baseEntity groupObj ctx h
  | DeleteGroup baseEntity id ctx => deleteGroup baseEntity id ctx h
  | ModifyGroup baseEntity id attrObj ctx => modifyGroup baseEntity id attrObj ctx h
  end.

(** The connection of a call has been closed with [close()], or the call
    made none. *)
Definition closed_by_handler (s : conn_state) : bool :=
  match s with
  | NoConnection | Closed => true
  | _ => false
  end.

(** The invariant as the specification words it: whenever a call settles,
    its connection has been closed with [close()]. *)
Definition closed_on_every_path (srv : server) (tr : list event) : Prop :=
  Forall (fun s => closed_by_handler s = true) (states_at_settle srv NoConnection tr).

(** The connection of a call is not held: closed with [close()], refused
    by the server, or never made. *)
Definition released (s : conn_state) : bool :=
  match s with
  | NoConnection | Refused | Closed => true
  | _ => false
  end.

(** A value that is no object of the store below location [n]. *)
Definition fresh (n : nat) (v : hval) : Prop :=
  match v with
  | HPrim _ => True
  | HRef l => n <= l
  end.

(** The objects from location [n] on refer to no object below [n]. *)
Definition closed_above (n : nat) (h : heap) : Prop :=
  forall l o, n <= l -> h !! l = Some o -> Forall (fun kv => fresh n kv.2) o.

(** [h] is [h0] with objects added after it, none of which refers into
    [h0]. *)
Definition extends (h0 h : heap) : Prop :=
  take (length h0) h = h0 /\ closed_above (length h0) h.

(** A computation that keeps the objects of [h0] and whose result
    satisfies [post]. *)
Definition keeps (h0 : heap) {A : Type} (m : M A) (post : A -> Prop) : Prop :=
  forall h, extends h0 h ->
    extends h0 (fst (m h)) /\ forall a, snd (m h) = Ok a -> post a.

(** The objects under [v] are in the store, nested at most [d] deep: the
    shape of a configuration read from a JSON file. *)
Fixpoint depth_within (d : nat) (h : heap) (v : hval) : Prop :=
  match v with
  | HPrim _ => True
  | HRef l =>
      match d with
      | 0 => False
      | S d' =>
          exists o, h !! l = Some o /\ Forall (fun kv => depth_within d' h kv.2) o
      end
  end.

(* ===================================================================== *)
(** ** Sample data *)
(* ===================================================================== *)

Module Sample.

(** A row whose UserID is the empty string, as createUser stores it for
    [externalId: ''] (the column is [varchar(50) NOT NULL]). *)
Definition row_empty_id : row :=
  {| UserID := JStr ""; Enabled := JStr "true"; Password := JNull;
     FirstName := JStr "Jane"; MiddleName := JNull; LastName := JStr "";
     Email := JStr "j@x.com"; MobilePhone := JNull |}.

Definition row_jdoe : row :=
  {| UserID := JStr "jdoe"; Enabled := JStr "true"; Password := JNull;
     FirstName := JStr "Jane"; MiddleName := JNull; LastName := JStr "";
     Email := JStr "j@x.com"; MobilePhone := JNull |}.

(** Request contexts with an authorization header. *)
Definition ctx_with (header : string) : jsval :=
  JObj [("request", JObj [("header", JObj [("authorization", JStr header)])])].

(** [Basic] with user jdoe and password s3cret *)
Definition ctx_basic : jsval := ctx_with "Basic amRvZTpzM2NyZXQ=".

(** [Basic] whose decoded token is ":secret": no user name before the colon *)
Definition ctx_basic_no_user : jsval := ctx_with "Basic OnNlY3JldA==".

Definition ctx_bearer : jsval := ctx_with "Bearer abc.def".

(** A context without pass-through credentials. *)
Definition ctx_none : jsval := JObj [("request", JObj [("header", JObj [])])].

(** The store after start-up: the endpoint configuration at location 0, its
    connection object at 1, the authentication object at 2 with its options
    at 3, and the connection options at 4. *)
Definition heap0 : heap :=
  [ [("connection", HRef 1)];
    [("server", HPrim (PStr "sql.example.org")); ("authentication", HRef 2);
     ("options", HRef 4)];
    [("type", HPrim (PStr "default")); ("options", HRef 3)];
    [("userName", HPrim (PStr "sa")); ("password", HPrim (PStr "static-pw"))];
    [("port", HPrim (PNum 1433)); ("encrypt", HPrim (PBool false))] ].

Definition config0 : hval := HRef 0.

(** A server that accepts the connection and every statement, one that
    refuses the connection, and one that fails every statement. *)
Definition srv_ok : server :=
  {| connect_error := None; exec := fun _ => Rows [row_jdoe] |}.

Definition srv_refuse : server :=
  {| connect_error := Some "Failed to connect to sql.example.org:1433";
     exec := fun _ => Rows [] |}.

Definition srv_fail : server :=
  {| connect_error := None; exec := fun _ => Failed "Invalid object name" |}.

(** The password a connection configuration carries:
    [cfg.authentication.options.password]. *)
Definition password_of (h : heap) (cfg : hval) : result hval :=
  let! a := read h cfg "authentication" in
  let! o := read h a "options" in
  read h o "password".

Definition userName_of (h : heap) (cfg : hval) : result hval :=
  let! a := read h cfg "authentication" in
  let! o := read h a "options" in
  read h o "userName".

(** Filter descriptors. *)
Definition filter_none : obj := [("startIndex", JPrim (PNum 1)); ("count", JPrim (PNum 200))].

Definition filter_by_userName : obj :=
  [("attribute", JStr "userName"); ("operator", JStr "eq"); ("value", JStr "jdoe");
   ("rawFilter", JStr "userName eq jdoe")].

Definition filter_group : obj :=
  [("attribute", JStr "group.value"); ("operator", JStr "eq"); ("value", JStr "Admins");
   ("rawFilter", JStr "group.value eq Admins")].

Definition filter_advanced : obj :=
  [("rawFilter", JStr "active eq true and name.givenName sw J")].

(** SCIM users. *)
Definition user_jdoe : obj :=
  [("externalId", JStr "jdoe"); ("active", JBool true);
   ("name", JObj [("givenName", JStr "Jane")]);
   ("emails", JObj [("other", JObj [("value", JStr "j@x.com")])])].

(** A user without externalId. *)
Definition user_no_externalId : obj :=
  [("userName", JStr "jdoe"); ("name", JObj [("familyName", JStr "Doe")])].

(** A user whose emails have a work entry only. *)
Definition user_work_email : obj :=
  [("externalId", JStr "jdoe");
   ("emails", JObj [("work", JObj [("value", JStr "j@x.com")])])].

(** Patches. *)
Definition patch_clear_active : obj := [("active", JStr "")].

Definition patch_name_phone : obj :=
  [("active", JBool false); ("name", JObj [("givenName", JStr "Jane"); ("familyName", JStr "")]);
   ("phoneNumbers", JObj [("other", JObj [("value", JStr "555-0100")])])].

End Sample.

(* ===================================================================== *)
(** ** Vocabulary of the further properties *)
(* ===================================================================== *)

(** The name a handler gives itself in [action]. *)
Definition action_of (rq : request) : string :=
  match rq with
  | GetUsers _ _ _ _ => "getUsers"
  | CreateUser _ _ _ => "createUser"
  | DeleteUser _ _ _ => "deleteUser"
  | ModifyUser _ _ _ _ => "modifyUser"
  | GetGroups _ _ _ _ => "getGroups"
  | CreateGroup _ _ _ => "createGroup"
  | DeleteGroup _ _ _ => "deleteGroup"
  | ModifyGroup _ _ _ _ => "modifyGroup"
  end.

(** The name a handler puts in front of the client's errors: getUsers
    reports them as exploreUsers. *)
Definition client_label (rq : request) : string :=
  match rq with
  | GetUsers _ _ _ _ => "exploreUsers"
  | _ => action_of rq
  end.

(** The word between the statement and the server's message in the error
    of a failed statement: getUsers writes it with a capital. *)
Definition request_error_word (rq : request) : string :=
  match rq with
  | GetUsers _ _ _ _ => " Error: "
  | _ => " error: "
  end.

(** The three shapes of the effects of a call. *)
Definition trace_shape (srv : server) (tr : list event) : Prop :=
  tr = [Settle]
  \/ (exists cfg err, connect_error srv = Some err
        /\ tr = [NewConnection cfg; Connect; Settle])
  \/ (exists cfg q, connect_error srv = None
        /\ tr = [NewConnection cfg; Connect; ExecSql q; Close; Settle]).

(** The insert into table Group. *)
Definition group_statement (GroupID DisplayName : string) : string :=
  "insert into [Group] (GroupID, DisplayName)"
  +:+ newline +:+ "                values (" +:+ GroupID +:+ ", " +:+ DisplayName +:+ ")".

(** A row with another value in its Password column. *)
Definition with_Password (p : jsval) (r : row) : row :=
  {| UserID := UserID r; Enabled := Enabled r; Password := p;
     FirstName := FirstName r; MiddleName := MiddleName r; LastName := LastName r;
     Email := Email r; MobilePhone := MobilePhone r |}.

(** A server whose rows carry [p] in the Password column. *)
Definition with_Passwords (p : jsval) (srv : server) : server :=
  {| connect_error := connect_error srv;
     exec := fun q =>
       match exec srv q with
       | Rows rows => Rows (map (with_Password p) rows)
       | Failed err => Failed err
       end |}.

(** The character [c] occurs in [s]. *)
Fixpoint has_char (c : ascii) (s : string) : bool :=
  match s with
  | EmptyString => false
  | String x rest => Ascii.eqb x c || has_char c rest
  end.

(** The request context of a call. *)
Definition ctx_of (rq : request) : jsval :=
  match rq with
  | GetUsers _ _ _ ctx | CreateUser _ _ ctx | DeleteUser _ _ ctx
  | ModifyUser _ _ _ ctx | GetGroups _ _ _ ctx | CreateGroup _ _ ctx
  | DeleteGroup _ _ ctx | ModifyGroup _ _ _ ctx => ctx
  end.

(** The handlers that work on a connection. *)
Definition connects (rq : request) : bool :=
  match rq with
  | GetGroups _ _ _ _ | DeleteGroup _ _ _ | ModifyGroup _ _ _ _ => false
  | _ => true
  end.

(** A value that is a primitive or an object of the store. *)
Definition in_range (h : heap) (v : hval) : Prop :=
  match v with
  | HPrim _ => True
  | HRef l => l < length h
  end.

(** The objects from location [n] on refer to objects of the store only. *)
Definition sound (n : nat) (h : heap) : Prop :=
  forall l o, n <= l -> h !! l = Some o -> Forall (fun kv => in_range h kv.2) o.

(** A computation that keeps the store sound from [n] on and never
    shrinks it. *)
Definition keeps_sound (n : nat) {A : Type} (m : M A) : Prop :=
  forall h, sound n h -> sound n (fst (m h)) /\ length h <= length (fst (m h)).

(** [cfg.authentication.options[k]] *)
Definition credential (h : heap) (cfg : hval) (k : string) : result hval :=
  let! a := read h cfg "authentication" in
  let! o := read h a "options" in
  read h o k.

(** A computation that writes properties named in [K] only: every other
    property of every object that was in the store reads as before. *)
Definition frames (K : list string) {A : Type} (m : M A) : Prop :=
  forall h,
    length h <= length (fst (m h))
    /\ forall v k, in_range h v -> ~ In k K ->
         read (fst (m h)) v k = read h v k.

(** The properties the block of lines 112-119 writes. *)
Definition credential_properties : list string :=
  ["authentication"; "type"; "options"; "password"; "userName"].

(** A computation whose result, when it has one, is [c]. *)
Definition returns {A : Type} (c : A) (m : M A) : Prop :=
  forall h a, snd (m h) = Ok a -> a = c.

(** [v?.k] on the store. *)
Definition opt_read (h : heap) (v : hval) (k : string) : hval :=
  match v with
  | HRef l => field k (deref h l)
  | HPrim _ => HPrim PUndefined
  end.

(** lines 55-58, run once when the plugin is loaded: a configured password
    is replaced by what [scimgateway.getPassword] returns for it.
    [sqlPassword] is that value; getPassword belongs to the gateway. *)
Definition startup (sqlPassword : hval) (config : hval) : M unit :=
  fun h =>
    if hval_truthy
         (opt_read h (opt_read h (opt_read h (opt_read h config "connection")
                                    "authentication") "options") "password")
    then
      (let* connection := m_read config "connection" in
       let* a := m_read connection "authentication" in
       let* o := m_read a "options" in
       m_write o "password" sqlPassword) h
    else (h, Ok tt).

(** A patch whose emails have a work entry only. *)
Definition patch_work_email : obj :=
  [("emails", JObj [("work", JObj [("value", JStr "j@x.com")])])].

(** A store whose configuration has no authentication type. *)
Definition heap_no_type : heap :=
  [ [("connection", HRef 1)];
    [("server", HPrim (PStr "sql.example.org")); ("authentication", HRef 2)];
    [("options", HRef 3)];
    [("userName", HPrim (PStr "sa")); ("password", HPrim (PStr "static-pw"))] ].

(* ===================================================================== *)
(** ** Properties *)
(* ===================================================================== *)

Section GetUsers.

Variable base64_text : string -> string.
Variable srv : server.
Variable config : hval.

Lemma getUsers_queries baseEntity getObj attributes ctx h q sqlQuery :
  getUsers_sqlQuery getObj = Ok sqlQuery ->
  In q (queries (trace (getUsers base64_text srv config baseEntity getObj attributes ctx h))) ->
  q = sqlQuery.
Proof.
  intros Hq. unfold getUsers. rewrite Hq.
  destruct (connectionCfg base64_text config ctx h) as [h' [cfg | e]]; simpl.
  - destruct (connect_error srv); simpl.
    + tauto.
    + destruct (exec srv sqlQuery); simpl; intuition congruence.
  - tauto.
Qed.

(** C1. The filter logic of getUsers.  A descriptor with neither operator
    nor rawFilter selects every row of table User; operator 'eq' on id,
    userName or externalId selects the rows whose UserID is the value; every
    other descriptor is rejected with one of the three unsupported-filter
    errors, and the call ends without a statement sent and with the store
    as it was. *)
Theorem getUsers_filter_logic baseEntity (getObj : obj) attributes ctx h :
  let operator := assoc "operator" getObj in
  let attribute := assoc "attribute" getObj in
  let rawFilter := assoc "rawFilter" getObj in
  let r := getUsers base64_text srv config baseEntity getObj attributes ctx h in
  (truthy operator = false -> truthy rawFilter = false ->
     getUsers_sqlQuery getObj = Ok "select * from [User]"
     /\ forall q, In q (queries (trace r)) -> q = "select * from [User]")
  /\ (is_str operator "eq" = true ->
      includes ["id"; "userName"; "externalId"] attribute = true ->
     let q' := "select * from [User] where UserID = '" +:+ to_string (assoc "value" getObj) +:+ "'" in
     getUsers_sqlQuery getObj = Ok q'
     /\ forall q, In q (queries (trace r)) -> q = q')
  /\ (~ (truthy operator = false /\ truthy rawFilter = false) ->
      ~ (is_str operator "eq" = true
         /\ includes ["id"; "userName"; "externalId"] attribute = true) ->
     exists e, unsupported_filter getObj e
       /\ getUsers_sqlQuery getObj = Throw e
       /\ r = {| store_after := h; trace := [Settle]; outcome_of := Rejected e |}
       /\ queries (trace r) = []).
Proof.
  cbv zeta.
  set (r := getUsers _ _ _ _ _ _ _ _).
  assert (Hall : truthy (assoc "operator" getObj) = false ->
                 truthy (assoc "rawFilter" getObj) = false ->
                 getUsers_sqlQuery getObj = Ok "select * from [User]").
  { intros Hop Hraw. unfold getUsers_sqlQuery. cbv zeta.
    rewrite Hop, Hraw. reflexivity. }
  assert (Heq : is_str (assoc "operator" getObj) "eq" = true ->
                includes ["id"; "userName"; "externalId"] (assoc "attribute" getObj) = true ->
                getUsers_sqlQuery getObj
                = Ok ("select * from [User] where UserID = '"
                        +:+ to_string (assoc "value" getObj) +:+ "'")).
  { intros Hop Hattr. unfold getUsers_sqlQuery. cbv zeta.
    rewrite Hop, Hattr.
    assert (Ht : truthy (assoc "operator" getObj) = true).
    { destruct (assoc "operator" getObj) as [[| | | |s]| |]; try discriminate.
      simpl in Hop. apply String.eqb_eq in Hop. subst. reflexivity. }
    rewrite Ht. reflexivity. }
  split; [| split].
  - intros Hop Hraw. split; [auto |].
    intros q. apply getUsers_queries. auto.
  - intros Hop Hattr. split; [auto |].
    intros q. apply getUsers_queries. auto.
  - intros Hnone Hnoeq.
    assert (Hthrow : exists e, unsupported_filter getObj e
                               /\ getUsers_sqlQuery getObj = Throw e).
    { clear Hall Heq. unfold getUsers_sqlQuery, unsupported_filter. cbv zeta.
      destruct (truthy (assoc "operator" getObj)) eqn:Hop.
      - destruct (is_str (assoc "operator" getObj) "eq") eqn:Heq'.
        + destruct (includes ["id"; "userName"; "externalId"] (assoc "attribute" getObj))
            eqn:Hin.
          * exfalso. apply Hnoeq. auto.
          * destruct (is_str (assoc "attribute" getObj) "group.value"); simpl;
              (eexists; split; [| reflexivity]; auto).
        + simpl. eexists; split; [| reflexivity]; auto.
      - destruct (truthy (assoc "rawFilter" getObj)) eqn:Hraw; simpl.
        + eexists; split; [| reflexivity]; auto.
        + exfalso. apply Hnone. auto. }
    destruct Hthrow as (e & Hu & He).
    exists e. subst r. unfold getUsers. rewrite He. simpl. auto.
Qed.

End GetUsers.

(** The witness of C1: no filter, a filter on userName, and a filter on
    group.value. *)
Lemma getUsers_filter_logic_witness :
  getUsers_sqlQuery Sample.filter_none = Ok "select * from [User]"
  /\ getUsers_sqlQuery Sample.filter_by_userName
     = Ok "select * from [User] where UserID = 'jdoe'"
  /\ exists e, unsupported_filter Sample.filter_group e
       /\ getUsers_sqlQuery Sample.filter_group = Throw e.
Proof.
  split; [| split].
  - destruct (getUsers_filter_logic Base64.decode Sample.srv_ok Sample.config0
                JNull Sample.filter_none JNull Sample.ctx_none Sample.heap0)
      as (Hall & _ & _).
    apply Hall; reflexivity.
  - destruct (getUsers_filter_logic Base64.decode Sample.srv_ok Sample.config0
                JNull Sample.filter_by_userName JNull Sample.ctx_none Sample.heap0)
      as (_ & Heq & _).
    apply Heq; reflexivity.
  - destruct (getUsers_filter_logic Base64.decode Sample.srv_ok Sample.config0
                JNull Sample.filter_group JNull Sample.ctx_none Sample.heap0)
      as (_ & _ & Hother).
    destruct Hother as (e & Hu & He & _).
    + intros [H _]. discriminate H.
    + intros [_ H]. discriminate H.
    + exists e. split; assumption.
Defined.

(* ------------------------------------------------------------------- *)
(** *** The row mapper *)

Lemma truthy_varchar (s : string) : truthy (JStr s) = true <-> s <> "".
Proof.
  simpl. destruct (String.eqb_spec s ""); simpl; split; congruence.
Qed.

Lemma is_str_true (v : jsval) (s : string) : is_str v s = true <-> v = JStr s.
Proof.
  destruct v as [[| | | |s']| |]; simpl; split; try discriminate.
  - intros H. apply String.eqb_eq in H. congruence.
  - intros H. injection H as ->. apply String.eqb_refl.
Qed.

(** The rows of a successful query, mapped in order, are the Resources of
    the result. *)
Lemma getUsers_resources (base64_text : string -> string) (srv : server) (config : hval)
    baseEntity (getObj : obj) attributes ctx h sqlQuery cfg rows :
  getUsers_sqlQuery getObj = Ok sqlQuery ->
  snd (connectionCfg base64_text config ctx h) = Ok cfg ->
  connect_error srv = None ->
  exec srv sqlQuery = Rows rows ->
  outcome_of (getUsers base64_text srv config baseEntity getObj attributes ctx h)
  = Resolved (JObj [("Resources", JArr (map scimUser rows)); ("totalResults", JNull)]).
Proof.
  intros Hq Hcfg Hconn Hrows. unfold getUsers. rewrite Hq.
  destruct (connectionCfg base64_text config ctx h) as [h' r]. simpl in Hcfg.
  subst r. rewrite Hconn, Hrows. reflexivity.
Qed.

(** C2, as stated, fails on a row whose UserID is the empty string: the
    mapped id is [undefined], not the column's value. *)
Lemma scimUser_id_not_UserID :
  opt_get (scimUser Sample.row_empty_id) "id" <> UserID Sample.row_empty_id.
Proof. simpl. discriminate. Qed.

(** C2 (amended). For every row, the mapped SCIM user has id, userName
    and externalId equal to the row's UserID when that value is present (not
    null, not empty) and all three undefined otherwise; active is true
    exactly when Enabled is the string "true" and false for every other
    value; FirstName, MiddleName and LastName give name.givenName,
    middleName and familyName, undefined when the column is null or empty;
    MobilePhone and Email give one-element arrays with type "other" when
    present and are undefined otherwise. *)
Theorem scimUser_mapping (r : row) :
  let u := scimUser r in
  let name := opt_get u "name" in
  when_present (UserID r) (UserID r) (opt_get u "id")
  /\ when_present (UserID r) (UserID r) (opt_get u "userName")
  /\ when_present (UserID r) (UserID r) (opt_get u "externalId")
  /\ (opt_get u "active" = JBool true <-> Enabled r = JStr "true")
  /\ (opt_get u "active" = JBool false <-> Enabled r <> JStr "true")
  /\ when_present (FirstName r) (FirstName r) (opt_get name "givenName")
  /\ when_present (MiddleName r) (MiddleName r) (opt_get name "middleName")
  /\ when_present (LastName r) (LastName r) (opt_get name "familyName")
  /\ when_present (MobilePhone r) (other_entry (MobilePhone r)) (opt_get u "phoneNumbers")
  /\ when_present (Email r) (other_entry (Email r)) (opt_get u "emails").
Proof.
  assert (Hact : forall b, JBool (is_str (Enabled r) "true" || false) = JBool b
                           <-> is_str (Enabled r) "true" = b).
  { intros b. rewrite orb_false_r. split; congruence. }
  cbv zeta. unfold when_present, other_entry. simpl.
  split; [split; intros H; rewrite H; reflexivity |].
  split; [split; intros H; rewrite H; reflexivity |].
  split; [split; intros H; rewrite H; reflexivity |].
  split.
  { rewrite Hact. apply is_str_true. }
  split.
  { rewrite Hact, <- is_str_true.
    destruct (is_str (Enabled r) "true"); split; congruence. }
  split; [split; intros H; rewrite H; reflexivity |].
  split; [split; intros H; rewrite H; reflexivity |].
  split; [split; intros H; rewrite H; reflexivity |].
  split; [split; intros H; rewrite H; reflexivity |].
  split; intros H; rewrite H; reflexivity.
Qed.

(** The witness of C2 on the row of user jdoe. *)
Lemma scimUser_mapping_witness :
  opt_get (scimUser Sample.row_jdoe) "id" = JStr "jdoe"
  /\ opt_get (scimUser Sample.row_jdoe) "active" = JBool true
  /\ opt_get (opt_get (scimUser Sample.row_jdoe) "name") "familyName" = JUndefined
  /\ opt_get (scimUser Sample.row_jdoe) "emails" = other_entry (JStr "j@x.com").
Proof.
  destruct (scimUser_mapping Sample.row_jdoe)
    as (Hid & _ & _ & Hact & _ & _ & _ & Hfam & _ & Hmail).
  split; [apply Hid; reflexivity |].
  split; [apply Hact; reflexivity |].
  split; [apply Hfam; reflexivity |].
  apply Hmail; reflexivity.
Defined.

(* ------------------------------------------------------------------- *)
(** *** Groups *)

(** C5. deleteGroup and modifyGroup reject with "not supported" on every
    input, and getGroups resolves with an empty Resources list for every
    filter descriptor; none of the three makes a connection, sends a
    statement or touches the store. *)
Theorem groups_not_supported baseEntity id (attrObj getObj : obj) attributes ctx h :
  deleteGroup baseEntity id ctx h
  = {| store_after := h; trace := [Settle];
       outcome_of := Rejected (Error "deleteGroup error: deleteGroup is not supported") |}
  /\ modifyGroup baseEntity id attrObj ctx h
     = {| store_after := h; trace := [Settle];
          outcome_of := Rejected (Error "modifyGroup error: modifyGroup is not supported") |}
  /\ getGroups baseEntity getObj attributes ctx h
     = {| store_after := h; trace := [Settle];
          outcome_of := Resolved (JObj [("Resources", JArr [])]) |}
  /\ queries (trace (getGroups baseEntity getObj attributes ctx h)) = [].
Proof.
  repeat split.
Qed.

(* ------------------------------------------------------------------- *)
(** *** The credential decoder *)

Section GetCtxAuth.

Variable base64_text : string -> string.

Lemma split_nonempty_header (header : string) (a b : string) (more : list string) :
  split " " header = a :: b :: more -> truthy (JStr header) = true.
Proof.
  destruct header; simpl; [discriminate | reflexivity].
Qed.

(** Basic with a user name: the decoded user name and password. *)
Lemma getCtxAuth_basic ctx header token more user :
  authorization ctx = JStr header ->
  split " " header = "Basic" :: token :: more ->
  item (split ":" (base64_text token)) 0 = PStr user ->
  user <> "" ->
  getCtxAuth base64_text ctx
  = Ok (PStr user, item (split ":" (base64_text token)) 1).
Proof.
  intros Hauth Hsplit Huser Hne.
  unfold getCtxAuth. rewrite Hauth.
  rewrite (split_nonempty_header _ _ _ _ Hsplit). simpl.
  rewrite Hsplit. simpl. rewrite Huser. simpl.
  destruct (String.eqb_spec user ""); [contradiction | reflexivity].
Qed.

(** Any other scheme: no user name, and the token as the password. *)
Lemma getCtxAuth_other_scheme ctx header :
  authorization ctx = JStr header ->
  header <> "" ->
  item (split " " header) 0 <> PStr "Basic" ->
  getCtxAuth base64_text ctx = Ok (PUndefined, item (split " " header) 1).
Proof.
  intros Hauth Hne Hscheme.
  unfold getCtxAuth. rewrite Hauth.
  assert (Ht : truthy (JStr header) = true) by (apply truthy_varchar; exact Hne).
  rewrite Ht. simpl.
  destruct (item (split " " header) 0) as [| | | |s] eqn:Hs; try reflexivity.
  destruct (String.eqb_spec s "Basic") as [-> | Hs'].
  - contradiction.
  - assert (Hm : forall (A : Type) (x y : A),
               match s with "Basic" => x | _ => y end = y).
    { intros A x y.
      repeat (match goal with
              | |- match ?t with _ => _ end = _ =>
                  destruct t; try reflexivity
              | |- (if ?b then _ else _) = _ =>
                  destruct b; try reflexivity
              end).
      exfalso. apply Hs'. reflexivity. }
    rewrite Hm. reflexivity.
Qed.

(** C10. A Basic header whose decoded token has no character before its
    first colon: the decoder returns no user name, and as the password the
    token as it came, still encoded. *)
Theorem getCtxAuth_basic_empty_username ctx header token more rest :
  authorization ctx = JStr header ->
  split " " header = "Basic" :: token :: more ->
  base64_text token = String ":" rest ->
  getCtxAuth base64_text ctx = Ok (PUndefined, PStr token).
Proof.
  intros Hauth Hsplit Hdec.
  unfold getCtxAuth. rewrite Hauth.
  rewrite (split_nonempty_header _ _ _ _ Hsplit). simpl.
  rewrite Hsplit. simpl. rewrite Hdec. reflexivity.
Qed.

End GetCtxAuth.

(** The witness of C10: the header [Basic OnNlY3JldA==], whose token decodes
    to [:secret]. *)
Lemma getCtxAuth_basic_empty_username_witness :
  getCtxAuth Base64.decode Sample.ctx_basic_no_user = Ok (PUndefined, PStr "OnNlY3JldA==").
Proof.
  apply (getCtxAuth_basic_empty_username Base64.decode Sample.ctx_basic_no_user
           "Basic OnNlY3JldA==" "OnNlY3JldA==" [] "secret"); reflexivity.
Defined.

(** C7 at the header [Basic OnNlY3JldA==].  The token decodes to the empty
    user name and the password [secret]; the decoder returns the encoded
    token as the password, and that is the password the connection
    configuration of the call carries. *)
Lemma getCtxAuth_basic_no_user_sample :
  Base64.decode "OnNlY3JldA==" = ":secret"
  /\ getCtxAuth Base64.decode Sample.ctx_basic_no_user = Ok (PUndefined, PStr "OnNlY3JldA==")
  /\ (let (h', cfg) := connectionCfg Base64.decode Sample.config0 Sample.ctx_basic_no_user
                         Sample.heap0 in
      bind cfg (Sample.password_of h') = Ok (HPrim (PStr "OnNlY3JldA=="))
      /\ bind cfg (Sample.userName_of h') = Ok (HPrim (PStr "sa"))).
Proof. vm_compute. repeat split. Qed.

(* ------------------------------------------------------------------- *)
(** *** Strings *)

Lemma append_assoc (a b c : string) : (a +:+ b) +:+ c = a +:+ (b +:+ c).
Proof. induction a as [| x a IH]; simpl; [reflexivity | now rewrite IH]. Qed.

Lemma append_nil_r (a : string) : a +:+ "" = a.
Proof. induction a as [| x a IH]; simpl; [reflexivity | now rewrite IH]. Qed.

Lemma drop_last_cons (c : ascii) (s : string) :
  s <> "" -> drop_last (String c s) = String c (drop_last s).
Proof.
  unfold drop_last. destruct s as [| d s]; [congruence |].
  intros _. simpl. now rewrite Nat.sub_0_r.
Qed.

Lemma drop_last_append (a b : string) :
  b <> "" -> drop_last (a +:+ b) = a +:+ drop_last b.
Proof.
  intros Hb. induction a as [| x a IH]; simpl; [reflexivity |].
  rewrite drop_last_cons, IH; [reflexivity |].
  destruct a; simpl; [exact Hb | discriminate].
Qed.

Lemma trailing_commas_app (l1 l2 : list string) :
  trailing_commas (l1 ++ l2) = trailing_commas l1 +:+ trailing_commas l2.
Proof.
  induction l1 as [| x l1 IH]; simpl; [reflexivity |].
  now rewrite IH, !append_assoc.
Qed.

Lemma trailing_commas_nonempty (x : string) (l : list string) :
  trailing_commas (x :: l) <> "".
Proof.
  simpl. destruct x; simpl; discriminate.
Qed.

(** Trimming the last comma of the accumulated assignments leaves them
    separated by commas. *)
Lemma drop_last_trailing_commas (l : list string) :
  drop_last (trailing_commas l) = String.concat "," l.
Proof.
  induction l as [| x l IH]; [reflexivity |].
  destruct l as [| y l].
  - simpl. rewrite drop_last_append by discriminate. simpl.
    apply append_nil_r.
  - change (trailing_commas (x :: y :: l))
      with (x +:+ "," +:+ trailing_commas (y :: l)).
    rewrite <- append_assoc.
    rewrite drop_last_append by apply trailing_commas_nonempty.
    rewrite IH. simpl. now rewrite append_assoc.
Qed.

(* ------------------------------------------------------------------- *)
(** *** Request objects after the defaults *)

Lemma assoc_set_eq (k : string) (v : jsval) (o : obj) :
  assoc k (assoc_set k v o) = v.
Proof.
  induction o as [| [k' v'] o IH]; simpl.
  - now rewrite String.eqb_refl.
  - destruct (String.eqb k k') eqn:E; simpl; rewrite ?String.eqb_refl, ?E; auto.
Qed.

Lemma assoc_set_neq (k k' : string) (v : jsval) (o : obj) :
  k <> k' -> assoc k (assoc_set k' v o) = assoc k o.
Proof.
  intros Hne. apply String.eqb_neq in Hne.
  induction o as [| [k'' v''] o IH]; simpl.
  - now rewrite Hne.
  - destruct (String.eqb k' k'') eqn:E; simpl.
    + apply String.eqb_eq in E. subst k''. now rewrite Hne.
    + now rewrite IH.
Qed.

Lemma defaults_other (k : string) (o : obj) :
  k <> "name" -> k <> "emails" -> k <> "phoneNumbers" ->
  assoc k (defaults o) = assoc k o.
Proof.
  intros Hn He Hp. unfold defaults.
  repeat match goal with
         | |- context [if ?b then _ else _] => destruct b
         end;
    rewrite ?assoc_set_neq by assumption; reflexivity.
Qed.

Lemma defaults_name (o : obj) :
  assoc "name" (defaults o)
  = if truthy (assoc "name" o) then assoc "name" o else JObj [].
Proof.
  unfold defaults.
  destruct (truthy (assoc "name" o)) eqn:Hn; simpl.
  - rewrite ?assoc_set_neq by discriminate.
    repeat match goal with
           | |- context [if ?b then _ else _] => destruct b
           end;
      rewrite ?assoc_set_neq by discriminate; reflexivity.
  - rewrite !assoc_set_neq by discriminate.
    repeat match goal with
           | |- context [if ?b then _ else _] => destruct b
           end;
      rewrite ?assoc_set_neq by discriminate; apply assoc_set_eq.
Qed.

Lemma defaults_emails (o : obj) :
  assoc "emails" (defaults o)
  = if truthy (assoc "emails" o) then assoc "emails" o
    else JObj [("other", JObj [])].
Proof.
  unfold defaults.
  destruct (truthy (assoc "name" o)); simpl;
    rewrite ?assoc_set_neq by discriminate;
    destruct (truthy (assoc "emails" o)) eqn:He; simpl;
    repeat match goal with
           | |- context [if ?b then _ else _] => destruct b
           end;
    rewrite ?assoc_set_neq by discriminate;
    rewrite ?assoc_set_eq; reflexivity.
Qed.

Lemma defaults_phoneNumbers (o : obj) :
  assoc "phoneNumbers" (defaults o)
  = if truthy (assoc "phoneNumbers" o) then assoc "phoneNumbers" o
    else JObj [("other", JObj [])].
Proof.
  unfold defaults.
  destruct (truthy (assoc "name" o)); simpl;
    destruct (truthy (assoc "emails" _)); simpl;
    rewrite ?assoc_set_neq by discriminate;
    destruct (truthy (assoc "phoneNumbers" o)) eqn:Hp; simpl;
    rewrite ?assoc_set_neq by discriminate;
    rewrite ?assoc_set_eq; reflexivity.
Qed.

Lemma get_truthy (c : jsval) (k : string) :
  truthy c = true -> get c k = Ok (opt_get c k).
Proof.
  destruct c as [[| | | |]| |]; simpl; try discriminate; reflexivity.
Qed.

Lemma opt_get_falsy (c : jsval) (k : string) :
  truthy c = false -> opt_get c k = JUndefined.
Proof.
  destruct c as [[| | | |]| |]; simpl; try discriminate; reflexivity.
Qed.

(** A name part is read without a throw, and is what the input has. *)
Lemma get_name_defaults (o : obj) (k : string) :
  get (assoc "name" (defaults o)) k = Ok (opt_get (assoc "name" o) k).
Proof.
  rewrite defaults_name.
  destruct (truthy (assoc "name" o)) eqn:Hn.
  - now apply get_truthy.
  - now rewrite opt_get_falsy.
Qed.

Lemma get_other_defaulted (c : jsval) :
  get (if truthy c then c else JObj [("other", JObj [])]) "other" = Ok (other_of c).
Proof.
  unfold other_of. destruct (truthy c) eqn:Hc.
  - now apply get_truthy.
  - reflexivity.
Qed.

Lemma get_value_other_of (c : jsval) :
  has_other c = true -> get (other_of c) "value" = Ok (other_value c).
Proof.
  unfold has_other, other_of, other_value.
  destruct (truthy c) eqn:Hc; simpl.
  - intros Hn. destruct (opt_get c "other") as [[| | | |]| |]; simpl in *;
      try discriminate; reflexivity.
  - intros _. now rewrite (opt_get_falsy c).
Qed.

Lemma get_value_other_of_throws (c : jsval) :
  has_other c = false -> exists m, get (other_of c) "value" = Throw (TypeError m).
Proof.
  unfold has_other, other_of.
  destruct (truthy c) eqn:Hc; simpl; [| discriminate].
  intros Hn. destruct (opt_get c "other") as [[| | | |]| |]; simpl in *;
    try discriminate; eauto.
Qed.

Lemma to_string_quoted_or_null (v : jsval) :
  to_string (quoted_or_null v) = sql_literal v.
Proof.
  unfold quoted_or_null, sql_literal. destruct (truthy v); reflexivity.
Qed.

(* ------------------------------------------------------------------- *)
(** *** createUser *)

(** The values of the insert, from the input object. *)
Lemma createUser_insert_defaults (u : obj) :
  deref_ok u = true ->
  createUser_insert (defaults u)
  = Ok {| ins_UserID := JStr (quoted (assoc "externalId" u));
          ins_Enabled := JStr (enabled_literal (assoc "active" u));
          ins_Password := quoted_or_null (assoc "password" u);
          ins_FirstName := quoted_or_null (opt_get (assoc "name" u) "givenName");
          ins_MiddleName := quoted_or_null (opt_get (assoc "name" u) "middleName");
          ins_LastName := quoted_or_null (opt_get (assoc "name" u) "familyName");
          ins_MobilePhone := quoted_or_null (other_value (assoc "phoneNumbers" u));
          ins_Email := quoted_or_null (other_value (assoc "emails" u)) |}.
Proof.
  unfold deref_ok. intros [Hp He]%andb_prop.
  unfold createUser_insert.
  rewrite !get_name_defaults. simpl.
  rewrite defaults_phoneNumbers, get_other_defaulted. simpl.
  rewrite (get_value_other_of _ Hp). simpl.
  rewrite defaults_emails, get_other_defaulted. simpl.
  rewrite (get_value_other_of _ He). simpl.
  rewrite !defaults_other by discriminate.
  unfold enabled_literal.
  destruct (truthy (assoc "active" u)); reflexivity.
Qed.

(** Without a dereferenceable [other], the insert is not built: the
    executor throws a TypeError. *)
Lemma createUser_insert_throws (u : obj) :
  deref_ok u = false ->
  exists m, createUser_insert (defaults u) = Throw (TypeError m).
Proof.
  unfold deref_ok, createUser_insert. intros H.
  rewrite !get_name_defaults. simpl.
  rewrite defaults_phoneNumbers, get_other_defaulted. simpl.
  destruct (has_other (assoc "phoneNumbers" u)) eqn:Hp.
  - rewrite (get_value_other_of _ Hp). simpl.
    rewrite defaults_emails, get_other_defaulted. simpl.
    simpl in H.
    destruct (get_value_other_of_throws _ H) as [m Hm].
    rewrite Hm. simpl. eauto.
  - destruct (get_value_other_of_throws _ Hp) as [m Hm].
    rewrite Hm. simpl. eauto.
Qed.

Lemma createUser_sqlQuery_statement (i : insert_values) :
  createUser_sqlQuery i
  = insert_statement
      [to_string (ins_UserID i); to_string (ins_Enabled i); to_string (ins_Password i);
       to_string (ins_FirstName i); to_string (ins_MiddleName i);
       to_string (ins_LastName i); to_string (ins_Email i);
       to_string (ins_MobilePhone i)].
Proof.
  unfold createUser_sqlQuery, insert_statement. simpl.
  repeat (rewrite append_assoc; simpl). reflexivity.
Qed.

Section CreateUser.

Variable base64_text : string -> string.
Variable srv : server.
Variable config : hval.

Lemma createUser_queries baseEntity (userObj : obj) ctx h i q :
  createUser_insert (defaults userObj) = Ok i ->
  In q (queries (trace (createUser base64_text srv config baseEntity userObj ctx h))) ->
  q = createUser_sqlQuery i.
Proof.
  intros Hi. unfold createUser. rewrite Hi.
  destruct (connectionCfg base64_text config ctx h) as [h' [cfg | e]]; simpl.
  - destruct (connect_error srv); simpl.
    + tauto.
    + destruct (exec srv (createUser_sqlQuery i)); simpl; intuition congruence.
  - tauto.
Qed.

Lemma createUser_no_query baseEntity (userObj : obj) ctx h e :
  createUser_insert (defaults userObj) = Throw e ->
  queries (trace (createUser base64_text srv config baseEntity userObj ctx h)) = [].
Proof.
  intros He. unfold createUser. rewrite He. reflexivity.
Qed.

Lemma createUser_sends baseEntity (userObj : obj) ctx h i cfg :
  createUser_insert (defaults userObj) = Ok i ->
  snd (connectionCfg base64_text config ctx h) = Ok cfg ->
  connect_error srv = None ->
  queries (trace (createUser base64_text srv config baseEntity userObj ctx h))
  = [createUser_sqlQuery i].
Proof.
  intros Hi Hcfg Hconn. unfold createUser. rewrite Hi.
  destruct (connectionCfg base64_text config ctx h) as [h' r]. simpl in Hcfg.
  subst r. rewrite Hconn.
  destruct (exec srv (createUser_sqlQuery i)); reflexivity.
Qed.

(** The statement of a user, from the input object. *)
Lemma createUser_statement (u : obj) (i : insert_values) :
  createUser_insert (defaults u) = Ok i ->
  createUser_sqlQuery i
  = insert_statement
      [ quoted (assoc "externalId" u);
        enabled_literal (assoc "active" u);
        sql_literal (assoc "password" u);
        sql_literal (opt_get (assoc "name" u) "givenName");
        sql_literal (opt_get (assoc "name" u) "middleName");
        sql_literal (opt_get (assoc "name" u) "familyName");
        sql_literal (other_value (assoc "emails" u));
        sql_literal (other_value (assoc "phoneNumbers" u)) ].
Proof.
  intros Hi.
  destruct (deref_ok u) eqn:Hok.
  - rewrite (createUser_insert_defaults u Hok) in Hi.
    injection Hi as <-.
    rewrite createUser_sqlQuery_statement. simpl.
    now rewrite !to_string_quoted_or_null.
  - destruct (createUser_insert_throws u Hok) as [m Hm]. congruence.
Qed.


(** C6. A user without externalId: nothing validates it.  The only throw
    before the connection is the TypeError of a container without [other];
    every statement sent has the literal 'undefined' as its UserID, and it
    is sent whenever the containers can be dereferenced and the connection
    is made. *)
Theorem createUser_missing_externalId baseEntity (userObj : obj) ctx h :
  assoc "externalId" userObj = JUndefined ->
  let r := createUser base64_text srv config baseEntity userObj ctx h in
  (forall e, createUser_insert (defaults userObj) = Throw e ->
     deref_ok userObj = false /\ exists m, e = TypeError m)
  /\ (forall q, In q (queries (trace r)) ->
        exists rest, q = insert_statement ("'undefined'" :: rest) /\ length rest = 7)
  /\ (deref_ok userObj = true -> connect_error srv = None ->
      (exists cfg, snd (connectionCfg base64_text config ctx h) = Ok cfg) ->
      exists rest, queries (trace r) = [insert_statement ("'undefined'" :: rest)]
                   /\ length rest = 7).
Proof.
  intros Hid. cbv zeta. split; [| split].
  - intros e He.
    destruct (deref_ok userObj) eqn:Hok.
    + rewrite (createUser_insert_defaults userObj Hok) in He. discriminate.
    + destruct (createUser_insert_throws userObj Hok) as [m Hm].
      split; [reflexivity |]. exists m. congruence.
  - intros q Hq.
    destruct (createUser_insert (defaults userObj)) as [i | e] eqn:Hi.
    + rewrite (createUser_queries _ _ _ _ _ _ Hi Hq).
      rewrite (createUser_statement _ _ Hi), Hid.
      eexists. split; reflexivity.
    + rewrite (createUser_no_query _ _ _ _ _ Hi) in Hq. destruct Hq.
  - intros Hok Hconn [cfg Hcfg].
    pose proof (createUser_insert_defaults userObj Hok) as Hi.
    rewrite (createUser_sends _ _ _ _ _ _ Hi Hcfg Hconn).
    rewrite (createUser_statement _ _ Hi), Hid.
    eexists. split; reflexivity.
Qed.

End CreateUser.


(** The witness of C6: a user with a userName and no externalId. *)
Lemma createUser_missing_externalId_witness :
  exists rest,
    queries (trace (createUser Base64.decode Sample.srv_ok Sample.config0 JNull
                      Sample.user_no_externalId Sample.ctx_none Sample.heap0))
    = [insert_statement ("'undefined'" :: rest)]
    /\ length rest = 7.
Proof.
  destruct (createUser_missing_externalId Base64.decode Sample.srv_ok Sample.config0 JNull
              Sample.user_no_externalId Sample.ctx_none Sample.heap0) as (_ & _ & Hsent).
  - reflexivity.
  - apply Hsent.
    + reflexivity.
    + reflexivity.
    + eexists. vm_compute. reflexivity.
Defined.

Example createUser_no_externalId_statement :
  queries (trace (createUser Base64.decode Sample.srv_ok Sample.config0 JNull
                    Sample.user_no_externalId Sample.ctx_none Sample.heap0))
  = [ "insert into [User] (UserID, Enabled, Password, FirstName, MiddleName, LastName, Email, MobilePhone)"
      +:+ newline
      +:+ "                values ('undefined', 'false', null, null, null, 'Doe', null, null)" ].
Proof. reflexivity. Qed.


(** A user whose emails have no [other] entry: the executor throws before
    the connection is made. *)
Example createUser_work_email_throws :
  createUser Base64.decode Sample.srv_ok Sample.config0 JNull
    Sample.user_work_email Sample.ctx_none Sample.heap0
  = {| store_after := Sample.heap0; trace := [Settle];
       outcome_of := Rejected (Error
         "createUser error: Cannot read properties of undefined (reading 'value')") |}.
Proof. reflexivity. Qed.

(* ------------------------------------------------------------------- *)
(** *** modifyUser *)

Lemma assign_step_assignment (column sql : string) (v : jsval) :
  assign_step column sql v = sql +:+ trailing_commas (assignment column v).
Proof.
  unfold assign_step, assignment, quoted.
  destruct (is_undefined v); simpl.
  - now rewrite append_nil_r.
  - destruct (is_str v ""); simpl.
    + now rewrite append_assoc.
    + f_equal. rewrite !append_assoc. simpl.
      f_equal. f_equal. now rewrite !append_assoc.
Qed.

Lemma enabled_step_assignment (sql : string) (v : jsval) :
  enabled_step sql v = sql +:+ trailing_commas (enabled_assignment v).
Proof.
  unfold enabled_step, enabled_assignment, quoted.
  destruct (is_undefined v); simpl.
  - now rewrite append_nil_r.
  - rewrite !append_assoc. reflexivity.
Qed.

(** The accumulation of lines 280-306 as seven steps, once the values of
    the patch are read. *)
Lemma modifyUser_sql_steps (a : obj) (v3 v4 v5 o6 v6 o7 v7 : jsval) :
  get (assoc "name" a) "givenName" = Ok v3 ->
  get (assoc "name" a) "middleName" = Ok v4 ->
  get (assoc "name" a) "familyName" = Ok v5 ->
  get (assoc "phoneNumbers" a) "other" = Ok o6 ->
  get o6 "value" = Ok v6 ->
  get (assoc "emails" a) "other" = Ok o7 ->
  get o7 "value" = Ok v7 ->
  modifyUser_sql a
  = Ok (drop_last
          (assign_step "Email"
            (assign_step "MobilePhone"
              (assign_step "LastName"
                (assign_step "MiddleName"
                  (assign_step "FirstName"
                    (assign_step "Password"
                      (enabled_step "" (assoc "active" a))
                      (assoc "password" a))
                    v3)
                  v4)
                v5)
              v6)
            v7)).
Proof.
  intros H3 H4 H5 Ho6 H6 Ho7 H7.
  unfold modifyUser_sql.
  rewrite H3, H4, H5, Ho6, Ho7.
  cbv beta iota delta [bind].
  rewrite H6, H7.
  reflexivity.
Qed.

Lemma modifyUser_sql_defaults (a : obj) :
  deref_ok a = true ->
  modifyUser_sql (defaults a) = Ok (String.concat "," (set_clause a)).
Proof.
  unfold deref_ok. intros [Hp He]%andb_prop.
  rewrite (modifyUser_sql_steps (defaults a)
             (opt_get (assoc "name" a) "givenName")
             (opt_get (assoc "name" a) "middleName")
             (opt_get (assoc "name" a) "familyName")
             (other_of (assoc "phoneNumbers" a)) (other_value (assoc "phoneNumbers" a))
             (other_of (assoc "emails" a)) (other_value (assoc "emails" a))).
  - rewrite !defaults_other by discriminate.
    rewrite !assign_step_assignment, enabled_step_assignment.
    simpl ("" +:+ _).
    rewrite <- !trailing_commas_app, <- !app_assoc.
    now rewrite drop_last_trailing_commas.
  - apply get_name_defaults.
  - apply get_name_defaults.
  - apply get_name_defaults.
  - rewrite defaults_phoneNumbers. apply get_other_defaulted.
  - now apply get_value_other_of.
  - rewrite defaults_emails. apply get_other_defaulted.
  - now apply get_value_other_of.
Qed.

Lemma modifyUser_sql_throws (a : obj) :
  deref_ok a = false ->
  exists m, modifyUser_sql (defaults a) = Throw (TypeError m).
Proof.
  unfold deref_ok, modifyUser_sql. intros H.
  rewrite !get_name_defaults.
  rewrite defaults_phoneNumbers, get_other_defaulted.
  rewrite defaults_emails, get_other_defaulted.
  cbv beta iota delta [bind].
  destruct (has_other (assoc "phoneNumbers" a)) eqn:Hp.
  - rewrite (get_value_other_of _ Hp).
    simpl in H.
    destruct (get_value_other_of_throws _ H) as [m Hm].
    rewrite Hm. eauto.
  - destruct (get_value_other_of_throws _ Hp) as [m Hm].
    rewrite Hm. eauto.
Qed.

Lemma modifyUser_sqlQuery_statement (id : jsval) (l : list string) :
  modifyUser_sqlQuery id (String.concat "," l) = update_statement id l.
Proof.
  unfold modifyUser_sqlQuery, update_statement, quoted. reflexivity.
Qed.

Lemma length_assignment (column : string) (v : jsval) :
  length (assignment column v) = if is_undefined v then 0 else 1.
Proof.
  unfold assignment. destruct (is_undefined v); [reflexivity |].
  destruct (is_str v ""); reflexivity.
Qed.

Lemma length_enabled_assignment (v : jsval) :
  length (enabled_assignment v) = if is_undefined v then 0 else 1.
Proof.
  unfold enabled_assignment. destruct (is_undefined v); reflexivity.
Qed.

(** One assignment for each attribute the patch gives. *)
Lemma length_set_clause (a : obj) :
  length (set_clause a) = length (given_attributes a).
Proof.
  unfold set_clause, given_attributes.
  rewrite !length_app, !length_assignment, length_enabled_assignment.
  rewrite !filter_cons, filter_nil.
  repeat case_decide;
    repeat match goal with
           | H : is_undefined ?v = false |- _ => rewrite H; clear H
           | H : is_undefined ?v <> false |- _ =>
               apply not_false_is_true in H; rewrite H; clear H
           end;
    reflexivity.
Qed.

Section ModifyUser.

Variable base64_text : string -> string.
Variable srv : server.
Variable config : hval.

Lemma modifyUser_queries baseEntity id (attrObj : obj) ctx h sql q :
  modifyUser_sql (defaults attrObj) = Ok sql ->
  In q (queries (trace (modifyUser base64_text srv config baseEntity id attrObj ctx h))) ->
  q = modifyUser_sqlQuery id sql.
Proof.
  intros Hs. unfold modifyUser. rewrite Hs.
  destruct (connectionCfg base64_text config ctx h) as [h' [cfg | e]]; simpl.
  - destruct (connect_error srv); simpl.
    + tauto.
    + destruct (exec srv (modifyUser_sqlQuery id sql)); simpl; intuition congruence.
  - tauto.
Qed.

Lemma modifyUser_no_query baseEntity id (attrObj : obj) ctx h e :
  modifyUser_sql (defaults attrObj) = Throw e ->
  queries (trace (modifyUser base64_text srv config baseEntity id attrObj ctx h)) = [].
Proof.
  intros He. unfold modifyUser. rewrite He. reflexivity.
Qed.

Lemma modifyUser_sends baseEntity id (attrObj : obj) ctx h sql cfg :
  modifyUser_sql (defaults attrObj) = Ok sql ->
  snd (connectionCfg base64_text config ctx h) = Ok cfg ->
  connect_error srv = None ->
  queries (trace (modifyUser base64_text srv config baseEntity id attrObj ctx h))
  = [modifyUser_sqlQuery id sql].
Proof.
  intros Hs Hcfg Hconn. unfold modifyUser. rewrite Hs.
  destruct (connectionCfg base64_text config ctx h) as [h' r]. simpl in Hcfg.
  subst r. rewrite Hconn.
  destruct (exec srv (modifyUser_sqlQuery id sql)); reflexivity.
Qed.

(** C4 (amended). The update modifyUser builds has one assignment for each
    attribute the patch gives among active, password, givenName,
    middleName, familyName, phone and email, separated by commas with no
    comma after the last; password, givenName, middleName, familyName,
    phone and email give NULL for the empty string and the quoted literal
    otherwise; active gives the quoted literal of its value, whatever it
    is; the row is selected with [UserID like '<id>'].  No other statement
    is sent, and this one is sent whenever the containers can be
    dereferenced and the connection is made. *)
Theorem modifyUser_update_statement baseEntity id (attrObj : obj) ctx h :
  let r := modifyUser base64_text srv config baseEntity id attrObj ctx h in
  let statement := update_statement id (set_clause attrObj) in
  (forall q, In q (queries (trace r)) -> q = statement)
  /\ (deref_ok attrObj = true -> connect_error srv = None ->
      (exists cfg, snd (connectionCfg base64_text config ctx h) = Ok cfg) ->
      queries (trace r) = [statement])
  /\ length (set_clause attrObj) = length (given_attributes attrObj).
Proof.
  cbv zeta. split; [| split].
  - intros q Hq.
    destruct (deref_ok attrObj) eqn:Hok.
    + pose proof (modifyUser_sql_defaults attrObj Hok) as Hs.
      rewrite (modifyUser_queries _ _ _ _ _ _ _ Hs Hq).
      apply modifyUser_sqlQuery_statement.
    + destruct (modifyUser_sql_throws attrObj Hok) as [m Hm].
      rewrite (modifyUser_no_query _ _ _ _ _ _ Hm) in Hq. destruct Hq.
  - intros Hok Hconn [cfg Hcfg].
    pose proof (modifyUser_sql_defaults attrObj Hok) as Hs.
    rewrite (modifyUser_sends _ _ _ _ _ _ _ Hs Hcfg Hconn).
    now rewrite modifyUser_sqlQuery_statement.
  - apply length_set_clause.
Qed.

End ModifyUser.

(** The witness of C4: a patch of active, two name parts and the phone. *)
Lemma modifyUser_update_statement_witness :
  queries (trace (modifyUser Base64.decode Sample.srv_ok Sample.config0 JNull
                    (JStr "jdoe") Sample.patch_name_phone Sample.ctx_none Sample.heap0))
  = [ "update [User] set Enabled='false',FirstName='Jane',LastName=null,MobilePhone='555-0100' where UserID like 'jdoe'" ].
Proof.
  destruct (modifyUser_update_statement Base64.decode Sample.srv_ok Sample.config0 JNull
              (JStr "jdoe") Sample.patch_name_phone Sample.ctx_none Sample.heap0)
    as (_ & Hsent & _).
  rewrite Hsent.
  - reflexivity.
  - reflexivity.
  - reflexivity.
  - eexists. vm_compute. reflexivity.
Defined.

(** C4, as stated, fails on the patch [{active: ''}]: the assignment of
    Enabled is the quoted empty string, not NULL. *)
Lemma modifyUser_active_empty_string_not_null :
  queries (trace (modifyUser Base64.decode Sample.srv_ok Sample.config0 JNull
                    (JStr "jdoe") Sample.patch_clear_active Sample.ctx_none Sample.heap0))
  = [ "update [User] set Enabled='' where UserID like 'jdoe'" ]
  /\ update_statement (JStr "jdoe") (set_clause_as_specified Sample.patch_clear_active)
     = "update [User] set Enabled=null where UserID like 'jdoe'"
  /\ queries (trace (modifyUser Base64.decode Sample.srv_ok Sample.config0 JNull
                       (JStr "jdoe") Sample.patch_clear_active Sample.ctx_none Sample.heap0))
     <> [ update_statement (JStr "jdoe") (set_clause_as_specified Sample.patch_clear_active) ].
Proof.
  split; [reflexivity |]. split; [reflexivity |]. vm_compute. discriminate.
Qed.

(* ------------------------------------------------------------------- *)
(** *** The store: what a call keeps *)

Section Keeps.

Variable h0 : heap.

Lemma extends_refl : extends h0 h0.
Proof.
  split.
  - apply firstn_all.
  - intros l o Hl Ho. apply lookup_lt_Some in Ho. lia.
Qed.

Lemma extends_length (h : heap) : extends h0 h -> length h0 <= length h.
Proof.
  intros [Ht _]. rewrite <- Ht at 1. rewrite length_take. lia.
Qed.

Lemma fresh_field (o : hobj) (k : string) :
  Forall (fun kv => fresh (length h0) kv.2) o -> fresh (length h0) (field k o).
Proof.
  induction 1 as [| [k' v] o Hv Ho IH]; simpl; [exact I |].
  destruct (String.eqb k k'); auto.
Qed.

Lemma fresh_field_set (o : hobj) (k : string) (x : hval) :
  fresh (length h0) x ->
  Forall (fun kv => fresh (length h0) kv.2) o ->
  Forall (fun kv => fresh (length h0) kv.2) (field_set k x o).
Proof.
  intros Hx. induction 1 as [| [k' v] o Hv Ho IH]; simpl.
  - repeat constructor. exact Hx.
  - destruct (String.eqb k k'); constructor; auto.
Qed.

Lemma fresh_deref (h : heap) (l : loc) :
  extends h0 h -> length h0 <= l ->
  Forall (fun kv => fresh (length h0) kv.2) (deref h l).
Proof.
  intros [_ Hc] Hl. unfold deref.
  destruct (h !! l) as [o |] eqn:Ho; simpl; [| constructor].
  exact (Hc l o Hl Ho).
Qed.

Lemma extends_alloc (h : heap) (o : hobj) :
  extends h0 h ->
  Forall (fun kv => fresh (length h0) kv.2) o ->
  extends h0 (h ++ [o]) /\ fresh (length h0) (HRef (length h)).
Proof.
  intros Hext Ho. pose proof (extends_length h Hext) as Hlen.
  destruct Hext as [Ht Hc]. split; [split |].
  - rewrite take_app_le by exact Hlen. exact Ht.
  - intros l o' Hl Hlook.
    destruct (decide (l < length h)) as [Hlt | Hge].
    + rewrite lookup_app_l in Hlook by exact Hlt. exact (Hc l o' Hl Hlook).
    + rewrite lookup_app_r in Hlook by lia.
      destruct (l - length h) as [| n] eqn:E; simpl in Hlook; [| discriminate].
      injection Hlook as <-. exact Ho.
  - exact Hlen.
Qed.

Lemma extends_write (h : heap) (l : loc) (k : string) (x : hval) :
  extends h0 h -> length h0 <= l -> fresh (length h0) x ->
  extends h0 (alter (field_set k x) l h).
Proof.
  intros [Ht Hc] Hl Hx. split.
  - rewrite take_alter_ge by exact Hl. exact Ht.
  - intros l' o Hl' Hlook.
    rewrite list_lookup_alter in Hlook.
    destruct (decide (l = l')) as [<- | Hne].
    + destruct (h !! l) as [o' |] eqn:Ho; simpl in Hlook; [| discriminate].
      injection Hlook as <-.
      apply fresh_field_set; [exact Hx |]. exact (Hc l o' Hl Ho).
    + exact (Hc l' o Hl' Hlook).
Qed.

(** The rules of [keeps]. *)

Lemma keeps_ret {A : Type} (a : A) (post : A -> Prop) :
  post a -> keeps h0 (ret a) post.
Proof.
  intros Ha h Hext. split; [exact Hext |].
  intros a' [= <-]. exact Ha.
Qed.

Lemma keeps_seq {A B : Type} (m : M A) (k : A -> M B)
    (mid : A -> Prop) (post : B -> Prop) :
  keeps h0 m mid ->
  (forall a, mid a -> keeps h0 (k a) post) ->
  keeps h0 (seq m k) post.
Proof.
  intros Hm Hk h Hext. unfold seq.
  destruct (Hm h Hext) as [Hext' Hmid].
  destruct (m h) as [h' [a | e]]; simpl in *.
  - apply (Hk a); [apply Hmid; reflexivity | exact Hext'].
  - split; [exact Hext' | discriminate].
Qed.

Lemma keeps_lift {A : Type} (r : result A) :
  keeps h0 (lift r) (fun _ => True).
Proof.
  intros h Hext. split; [exact Hext | auto].
Qed.

Lemma keeps_read_any (v : hval) (k : string) :
  keeps h0 (m_read v k) (fun _ => True).
Proof.
  intros h Hext. split; [exact Hext | auto].
Qed.

Lemma keeps_read (v : hval) (k : string) :
  fresh (length h0) v -> keeps h0 (m_read v k) (fresh (length h0)).
Proof.
  intros Hv h Hext. split; [exact Hext |].
  unfold m_read, read. simpl.
  destruct v as [[| | | |] | l]; intros a [= <-]; try exact I.
  apply fresh_field. now apply fresh_deref.
Qed.

Lemma keeps_write (v : hval) (k : string) (x : hval) :
  fresh (length h0) v -> fresh (length h0) x ->
  keeps h0 (m_write v k x) (fun _ => True).
Proof.
  intros Hv Hx h Hext. unfold m_write, write.
  destruct v as [[| | | |] | l]; simpl; try (split; [exact Hext | auto]).
  split; [| auto]. apply extends_write; assumption.
Qed.

Lemma keeps_alloc_empty :
  keeps h0 (m_alloc []) (fresh (length h0)).
Proof.
  intros h Hext. unfold m_alloc, alloc. simpl.
  destruct (extends_alloc h [] Hext) as [Hext' Hfresh]; [constructor |].
  split; [exact Hext' |]. intros a [= <-]. exact Hfresh.
Qed.

(** The deep copy keeps the store and returns an object of its own. *)
Lemma copy_props_keeps (copy : heap -> hval -> option (heap * hval)) :
  (forall h v h' v', extends h0 h -> copy h v = Some (h', v') ->
     extends h0 h' /\ fresh (length h0) v') ->
  forall ps h h' o', extends h0 h -> copy_props copy ps h = Some (h', o') ->
    extends h0 h' /\ Forall (fun kv => fresh (length h0) kv.2) o'.
Proof.
  intros Hcopy. induction ps as [| [k x] ps IH]; intros h h' o' Hext; simpl.
  - intros [= <- <-]. split; [exact Hext | constructor].
  - destruct (copy h x) as [[h1 x'] |] eqn:Hx; [| discriminate].
    destruct (Hcopy _ _ _ _ Hext Hx) as [Hext1 Hfresh].
    destruct (copy_props copy ps h1) as [[h2 rest'] |] eqn:Hrest; [| discriminate].
    destruct (IH _ _ _ Hext1 Hrest) as [Hext2 Hall].
    intros [= <- <-]. split; [exact Hext2 |].
    constructor; assumption.
Qed.

Lemma copy_rec_keeps (fuel : nat) :
  forall h v h' v', extends h0 h -> copy_rec fuel h v = Some (h', v') ->
    extends h0 h' /\ fresh (length h0) v'.
Proof.
  induction fuel as [| fuel IH]; intros h v h' v' Hext; destruct v as [p | l]; simpl.
  - intros [= <- <-]. split; [exact Hext | exact I].
  - discriminate.
  - intros [= <- <-]. split; [exact Hext | exact I].
  - destruct (copy_props (copy_rec fuel) (deref h l) h) as [[h1 o'] |] eqn:Hps;
      [| discriminate].
    destruct (copy_props_keeps _ IH _ _ _ _ Hext Hps) as [Hext1 Hall].
    intros [= <- <-]. now apply extends_alloc.
Qed.

Lemma keeps_copyObj (v : hval) :
  keeps h0 (m_copyObj v) (fresh (length h0)).
Proof.
  intros h Hext. unfold m_copyObj, copyObj.
  destruct (copy_rec (S (length h)) h v) as [[h' v'] |] eqn:Hc; simpl.
  - destruct (copy_rec_keeps _ _ _ _ _ Hext Hc) as [Hext' Hfresh].
    split; [exact Hext' |]. intros a [= <-]. exact Hfresh.
  - split; [exact Hext | discriminate].
Qed.

End Keeps.

Ltac keeps_step :=
  lazymatch goal with
  | |- keeps _ (seq _ _) _ => eapply keeps_seq; [| intros ? ?]
  | |- keeps _ (m_read _ _) _ => apply keeps_read; assumption
  | |- keeps _ (m_write _ _ _) _ => apply keeps_write; first [assumption | exact I]
  | |- keeps _ (m_alloc []) _ => apply keeps_alloc_empty
  | |- keeps _ (m_copyObj _) _ => apply keeps_copyObj
  | |- keeps _ (lift _) _ => apply keeps_lift
  | |- keeps _ (ret _) _ => apply keeps_ret; first [assumption | exact I]
  | |- keeps _ (if ?b then _ else _) _ => destruct b
  end.

Section Frame.

Variable base64_text : string -> string.
Variable srv : server.
Variable config : hval.

(** The connection configuration of a call is an object of its own, and
    building it keeps every object the store had. *)
Lemma connectionCfg_keeps (h0 : heap) (ctx : jsval) :
  keeps h0 (connectionCfg base64_text config ctx) (fresh (length h0)).
Proof.
  unfold connectionCfg.
  eapply keeps_seq; [apply keeps_read_any | intros connection _].
  repeat keeps_step.
Qed.

Lemma connectionCfg_frame (h : heap) (ctx : jsval) :
  take (length h) (fst (connectionCfg base64_text config ctx h)) = h
  /\ forall cfg, snd (connectionCfg base64_text config ctx h) = Ok cfg ->
       fresh (length h) cfg.
Proof.
  destruct (connectionCfg_keeps h ctx h (extends_refl h)) as [[Ht _] Hpost].
  split; assumption.
Qed.

(** C9. A call of any handler leaves every object that was in the store
    before the call as it was, the static configuration among them; the
    configuration a call hands to its connection is an object the call
    allocated (the copy that carries the credential overrides). *)
Theorem static_configuration_unchanged (rq : request) (h : heap) :
  let r := handle base64_text srv config rq h in
  take (length h) (store_after r) = h
  /\ forall cfg, In (NewConnection cfg) (trace r) -> fresh (length h) cfg.
Proof.
  cbv zeta.
  assert (Hsame : take (length h) h = h) by apply firstn_all.
  destruct rq; simpl;
    unfold getUsers, createUser, deleteUser, modifyUser, getGroups, createGroup,
      deleteGroup, modifyGroup;
    repeat lazymatch goal with
      | |- context [match getUsers_sqlQuery ?g with _ => _ end] =>
          destruct (getUsers_sqlQuery g)
      | |- context [match createUser_insert ?u with _ => _ end] =>
          destruct (createUser_insert u)
      | |- context [match modifyUser_sql ?a with _ => _ end] =>
          destruct (modifyUser_sql a)
      end;
    try (simpl; split; [exact Hsame | intros cfg []; discriminate]);
    try (simpl; split; [exact Hsame | intros cfg [Hc | []]; discriminate]);
    (destruct (connectionCfg_frame h ctx) as [Ht Hfresh];
     destruct (connectionCfg base64_text config ctx h) as [h' [cfg' | e]];
     simpl in Ht, Hfresh;
     [ destruct (connect_error srv);
       [| match goal with
          | |- context [exec srv ?q] => destruct (exec srv q)
          end ]
     | ];
     simpl; (split; [exact Ht |]);
     intros cfg Hin;
     repeat (destruct Hin as [Hin | Hin]; [try discriminate |]);
     try contradiction;
     injection Hin as <-; apply Hfresh; reflexivity).
Qed.

End Frame.

(** A call with pass-through credentials on the sample store: the copy at
    location 8 carries the credentials of the header, the connection object
    of the static configuration (location 1) keeps its own. *)
Example connectionCfg_basic_overrides_copy :
  let (h', cfg) :=
    connectionCfg Base64.decode Sample.config0 Sample.ctx_basic Sample.heap0 in
  cfg = Ok (HRef 8)
  /\ Sample.userName_of h' (HRef 8) = Ok (HPrim (PStr "jdoe"))
  /\ Sample.password_of h' (HRef 8) = Ok (HPrim (PStr "s3cret"))
  /\ Sample.userName_of h' (HRef 1) = Ok (HPrim (PStr "sa"))
  /\ Sample.password_of h' (HRef 1) = Ok (HPrim (PStr "static-pw"))
  /\ take 5 h' = Sample.heap0.
Proof. vm_compute. repeat split. Qed.

Example connectionCfg_bearer_overrides_copy :
  let (h', cfg) :=
    connectionCfg Base64.decode Sample.config0 Sample.ctx_bearer Sample.heap0 in
  cfg = Ok (HRef 8)
  /\ Sample.userName_of h' (HRef 8) = Ok (HPrim (PStr "sa"))
  /\ Sample.password_of h' (HRef 8) = Ok (HPrim (PStr "abc.def"))
  /\ Sample.password_of h' (HRef 1) = Ok (HPrim (PStr "static-pw")).
Proof. vm_compute. repeat split. Qed.

(* ------------------------------------------------------------------- *)
(** *** The connection of a call *)

Section Connection.

Variable base64_text : string -> string.
Variable srv : server.
Variable config : hval.

(** C8 (amended). Every call of a handler settles once.  When it settles,
    its connection is not held: the call made no connection, or the server
    refused it, or the call closed it with close().  On the paths where the
    server accepts the connection (the statement succeeds or fails) close()
    has been called before the call settles; on the path where the server
    refuses the connection the call settles without a call of close(). *)
Theorem connection_released (rq : request) (h : heap) :
  let r := handle base64_text srv config rq h in
  exists s,
    states_at_settle srv NoConnection (trace r) = [s]
    /\ released s = true
    /\ (connect_error srv = None -> closed_by_handler s = true)
    /\ (queries (trace r) <> [] -> s = Closed)
    /\ (s = Closed -> In Close (trace r))
    /\ (s = Refused -> ~ In Close (trace r)).
Proof.
  cbv zeta.
  destruct rq; simpl;
    unfold getUsers, createUser, deleteUser, modifyUser, getGroups, createGroup,
      deleteGroup, modifyGroup;
    repeat lazymatch goal with
      | |- context [match getUsers_sqlQuery ?g with _ => _ end] =>
          destruct (getUsers_sqlQuery g)
      | |- context [match createUser_insert ?u with _ => _ end] =>
          destruct (createUser_insert u)
      | |- context [match modifyUser_sql ?a with _ => _ end] =>
          destruct (modifyUser_sql a)
      | |- context [match connectionCfg ?b ?c ?x ?y with _ => _ end] =>
          destruct (connectionCfg b c x y) as [? [? | ?]]
      end;
    try (destruct (connect_error srv) eqn:Hconn;
         [| match goal with
            | |- context [exec srv ?q] => destruct (exec srv q)
            end ]);
    simpl; rewrite ?Hconn;
    eexists; (split; [reflexivity |]); simpl;
    repeat split; try discriminate; try congruence; try tauto;
    intros _; intuition discriminate.
Qed.

End Connection.

(** C8, as stated, fails when the server refuses the connection: deleteUser
    makes its connection, asks for it to be established, and rejects without
    a call of close(). *)
Lemma deleteUser_refused_without_close :
  let r := deleteUser Base64.decode Sample.srv_refuse Sample.config0 JNull
             (JStr "jdoe") Sample.ctx_none Sample.heap0 in
  trace r = [NewConnection (HRef 8); Connect; Settle]
  /\ states_at_settle Sample.srv_refuse NoConnection (trace r) = [Refused]
  /\ ~ In Close (trace r)
  /\ ~ closed_on_every_path Sample.srv_refuse (trace r).
Proof.
  cbv zeta. split; [reflexivity |]. split; [reflexivity |]. split.
  - vm_compute. intuition discriminate.
  - unfold closed_on_every_path. vm_compute.
    intros H. inversion H as [| s l Hs Hl]. discriminate Hs.
Qed.

(** On the sample store, the three exits of deleteUser. *)
Example deleteUser_paths :
  trace (deleteUser Base64.decode Sample.srv_ok Sample.config0 JNull
           (JStr "jdoe") Sample.ctx_none Sample.heap0)
  = [NewConnection (HRef 8); Connect;
     ExecSql "delete from [User] where UserID = 'jdoe'"; Close; Settle]
  /\ trace (deleteUser Base64.decode Sample.srv_fail Sample.config0 JNull
              (JStr "jdoe") Sample.ctx_none Sample.heap0)
     = [NewConnection (HRef 8); Connect;
        ExecSql "delete from [User] where UserID = 'jdoe'"; Close; Settle]
  /\ outcome_of (deleteUser Base64.decode Sample.srv_fail Sample.config0 JNull
                   (JStr "jdoe") Sample.ctx_none Sample.heap0)
     = Rejected (Error "deleteUser error: deleteUser MSSQL client request: delete from [User] where UserID = 'jdoe' error: Invalid object name")
  /\ outcome_of (deleteUser Base64.decode Sample.srv_refuse Sample.config0 JNull
                   (JStr "jdoe") Sample.ctx_none Sample.heap0)
     = Rejected (Error "deleteUser error: deleteUser MSSQL client connect error: Failed to connect to sql.example.org:1433").
Proof. repeat split. Qed.

(** getUsers on the sample store: the scenario of the specification. *)
Example getUsers_by_userName :
  outcome_of (getUsers Base64.decode Sample.srv_ok Sample.config0 JNull
                Sample.filter_by_userName JNull Sample.ctx_none Sample.heap0)
  = Resolved (JObj [
      ("Resources", JArr [JObj [
         ("id", JStr "jdoe"); ("userName", JStr "jdoe"); ("externalId", JStr "jdoe");
         ("active", JBool true);
         ("name", JObj [("givenName", JStr "Jane"); ("middleName", JUndefined);
                        ("familyName", JUndefined)]);
         ("phoneNumbers", JUndefined);
         ("emails", JArr [JObj [("type", JStr "other"); ("value", JStr "j@x.com")]])]]);
      ("totalResults", JNull)]).
Proof. reflexivity. Qed.

Example split_samples :
  split " " "Basic abc" = ["Basic"; "abc"]
  /\ split ":" "" = [""]
  /\ split ":" ":pw" = [""; "pw"]
  /\ split ":" "user:pa:ss" = ["user"; "pa"; "ss"].
Proof. repeat split. Qed.

Example to_string_samples :
  to_string (JArr [JStr "a"; JNull; JArr [JBool true; JPrim (PNum 12)]]) = "a,,true,12"
  /\ to_string (JObj [("a", JNull)]) = "[object Object]"
  /\ to_string JUndefined = "undefined".
Proof. repeat split. Qed.

Example base64_samples :
  Base64.decode "amRvZTpzM2NyZXQ=" = "jdoe:s3cret"
  /\ Base64.decode "OnNlY3JldA==" = ":secret".
Proof. repeat split. Qed.

(* ------------------------------------------------------------------- *)
(** *** The deep copy returns *)

Lemma depth_within_prefix (d : nat) :
  forall (h h1 : heap) (v : hval),
    h `prefix_of` h1 -> depth_within d h v -> depth_within d h1 v.
Proof.
  induction d as [| d IH]; intros h h1 v Hpre; destruct v as [p | l]; simpl; auto.
  intros (o & Ho & Hall). exists o. split.
  - exact (prefix_lookup_Some _ _ _ _ Ho Hpre).
  - eapply Forall_impl; [exact Hall |]. intros kv. now apply IH.
Qed.

Lemma copy_props_total (d : nat) :
  (forall h v, depth_within d h v ->
     exists h' v', copy_rec d h v = Some (h', v') /\ h `prefix_of` h') ->
  forall (ps : hobj) (h : heap),
    Forall (fun kv => depth_within d h kv.2) ps ->
    exists h' o', copy_props (copy_rec d) ps h = Some (h', o') /\ h `prefix_of` h'.
Proof.
  intros Hcopy. induction ps as [| [k x] ps IH]; intros h Hall; simpl.
  - exists h, []. split; reflexivity.
  - apply Forall_cons in Hall as [Hx Hps]. simpl in Hx.
    destruct (Hcopy _ _ Hx) as (h1 & x' & -> & Hpre1).
    destruct (IH h1) as (h2 & rest' & -> & Hpre2).
    + eapply Forall_impl; [exact Hps |]. intros kv.
      now apply depth_within_prefix.
    + exists h2, ((k, x') :: rest'). split; [reflexivity |].
      now transitivity h1.
Qed.

(** With fuel for the depth of the graph, the recursion of the copy
    returns. *)
Lemma copy_rec_total (d : nat) :
  forall h v, depth_within d h v ->
    exists h' v', copy_rec d h v = Some (h', v') /\ h `prefix_of` h'.
Proof.
  induction d as [| d IH]; intros h v Hd; destruct v as [p | l]; simpl in *.
  - exists h, (HPrim p). split; reflexivity.
  - contradiction.
  - exists h, (HPrim p). split; reflexivity.
  - destruct Hd as (o & Ho & Hall). unfold deref. rewrite Ho. simpl.
    destruct (copy_props_total d IH o h Hall) as (h1 & o' & -> & Hpre).
    eexists _, _. split; [reflexivity |]. now apply prefix_app_r.
Qed.

Lemma copy_props_mono (copy1 copy2 : heap -> hval -> option (heap * hval)) :
  (forall h v r, copy1 h v = Some r -> copy2 h v = Some r) ->
  forall ps h r, copy_props copy1 ps h = Some r -> copy_props copy2 ps h = Some r.
Proof.
  intros Hc. induction ps as [| [k x] ps IH]; intros h r; simpl; [auto |].
  destruct (copy1 h x) as [[h1 x'] |] eqn:H1; [| discriminate].
  rewrite (Hc _ _ _ H1).
  destruct (copy_props copy1 ps h1) as [[h2 rest'] |] eqn:H2; [| discriminate].
  now rewrite (IH _ _ H2).
Qed.

(** More fuel does not change a result. *)
Lemma copy_rec_fuel (d : nat) :
  forall d' h v r, d <= d' -> copy_rec d h v = Some r -> copy_rec d' h v = Some r.
Proof.
  induction d as [| d IH]; intros d' h v r Hle; destruct v as [p | l]; simpl.
  - destruct d'; auto.
  - discriminate.
  - destruct d'; auto.
  - destruct d' as [| d']; [lia |]. simpl.
    destruct (copy_props (copy_rec d) (deref h l) h) as [[h1 o'] |] eqn:Hps;
      [| discriminate].
    rewrite (copy_props_mono (copy_rec d) (copy_rec d')
               (fun h v r => IH d' h v r ltac:(lia)) _ _ _ Hps).
    auto.
Qed.

(** copyObj returns on every graph nested no deeper than the store has
    objects. *)
Lemma copyObj_returns (d : nat) (h : heap) (v : hval) :
  depth_within d h v -> d <= S (length h) ->
  exists h' v', copyObj h v = Ok (h', v').
Proof.
  intros Hd Hle. destruct (copy_rec_total d h v Hd) as (h' & v' & Hc & _).
  unfold copyObj. rewrite (copy_rec_fuel d _ _ _ _ Hle Hc). eauto.
Qed.

(** Without pass-through credentials, the connection configuration is
    built whenever the static configuration has a connection of bounded
    depth. *)
Lemma connectionCfg_returns (base64_text : string -> string) (config : hval)
    (ctx : jsval) (h : heap) (connection : hval) (d : nat) :
  truthy (authorization ctx) = false ->
  read h config "connection" = Ok connection ->
  depth_within d h connection -> d <= S (length h) ->
  exists h' cfg, connectionCfg base64_text config ctx h = (h', Ok cfg).
Proof.
  intros Hauth Hread Hd Hle.
  destruct (copyObj_returns d h connection Hd Hle) as (h' & cfg & Hcopy).
  unfold connectionCfg, seq, m_read, m_copyObj. rewrite Hread, Hcopy, Hauth.
  eauto.
Qed.

Example sample_connection_depth :
  depth_within 3 Sample.heap0 (HRef 1).
Proof.
  simpl. eexists. split; [reflexivity |].
  repeat constructor; simpl;
    eexists; (split; [reflexivity |]); repeat constructor; simpl;
    eexists; (split; [reflexivity |]); repeat constructor.
Qed.

(** The witness of C8: deleteUser on a server that accepts the
    connection. *)
Lemma connection_released_witness :
  exists s,
    states_at_settle Sample.srv_ok NoConnection
      (trace (handle Base64.decode Sample.srv_ok Sample.config0
                (DeleteUser JNull (JStr "jdoe") Sample.ctx_none) Sample.heap0)) = [s]
    /\ closed_by_handler s = true.
Proof.
  destruct (connection_released Base64.decode Sample.srv_ok Sample.config0
              (DeleteUser JNull (JStr "jdoe") Sample.ctx_none) Sample.heap0)
    as (s & Hs & _ & Hclosed & _).
  exists s. split; [exact Hs |]. apply Hclosed. reflexivity.
Defined.

(** The witness of C9: createUser with Basic credentials on the sample
    store. *)
Lemma static_configuration_unchanged_witness :
  take 5 (store_after (handle Base64.decode Sample.srv_ok Sample.config0
                         (CreateUser JNull Sample.user_jdoe Sample.ctx_basic)
                         Sample.heap0)) = Sample.heap0
  /\ fresh 5 (HRef 8).
Proof.
  destruct (static_configuration_unchanged Base64.decode Sample.srv_ok Sample.config0
              (CreateUser JNull Sample.user_jdoe Sample.ctx_basic) Sample.heap0)
    as [Hkept Hfresh].
  split; [exact Hkept |]. apply Hfresh. left. reflexivity.
Defined.

(* ===================================================================== *)
(** ** Further properties *)
(* ===================================================================== *)

(** Case analysis of a call down to its exits. *)
Ltac handler_cases srv :=
  unfold getUsers, createUser, deleteUser, modifyUser, getGroups, createGroup,
    deleteGroup, modifyGroup;
  repeat lazymatch goal with
    | |- context [match getUsers_sqlQuery ?g with _ => _ end] =>
        let H := fresh "Hquery" in destruct (getUsers_sqlQuery g) eqn:H
    | |- context [match createUser_insert ?u with _ => _ end] =>
        destruct (createUser_insert u)
    | |- context [match modifyUser_sql ?a with _ => _ end] =>
        destruct (modifyUser_sql a)
    | |- context [match connectionCfg ?b ?c ?x ?y with _ => _ end] =>
        destruct (connectionCfg b c x y) as [? [? | ?]]
    end;
  try (let H := fresh "Hconn" in
       destruct (connect_error srv) eqn:H;
       [| match goal with
          | |- context [exec srv ?q] =>
              let H' := fresh "Hexec" in destruct (exec srv q) eqn:H'
          end ]).

Section Calls.

Variable base64_text : string -> string.
Variable srv : server.
Variable config : hval.

(** X1. A call makes at most one connection and sends at most one
    statement: its effects are the settling alone (nothing was connected),
    or a connection the server refused followed by the settling, or a
    connection, one statement, close() and the settling, in that order. *)
Theorem call_trace_shape (rq : request) (h : heap) :
  trace_shape srv (trace (handle base64_text srv config rq h)).
Proof.
  unfold trace_shape.
  destruct rq; simpl; handler_cases srv; simpl; eauto 7.
Qed.

(** The filter logic of getUsers throws [Error]s only, with these
    messages. *)
Lemma getUsers_sqlQuery_throws (getObj : obj) (e : exn) :
  getUsers_sqlQuery getObj = Throw e ->
  (exists rest, e = Error ("getUsers error: " +:+ rest))
  \/ (truthy (assoc "operator" getObj) = false
      /\ e = Error ("getUsers not error: supporting advanced filtering: "
                      +:+ to_string (assoc "rawFilter" getObj))).
Proof.
  unfold getUsers_sqlQuery. cbv zeta.
  destruct (truthy (assoc "operator" getObj)).
  - destruct (is_str (assoc "operator" getObj) "eq"
              && includes ["id"; "userName"; "externalId"] (assoc "attribute" getObj)).
    + simpl. discriminate.
    + destruct (is_str (assoc "operator" getObj) "eq"
                && is_str (assoc "attribute" getObj) "group.value");
        simpl; intros [= <-]; left; eauto.
  - destruct (truthy (assoc "rawFilter" getObj)); simpl.
    + intros [= <-]. right. split; reflexivity.
    + discriminate.
Qed.

(** X2. Whatever goes wrong in a call, the caller gets an [Error] whose
    message starts with the handler's name and [error:]; a TypeError of the
    engine or an error of the client never leaves a handler as it is.  The
    one exception in the wording is the rejection of an advanced filter by
    getUsers, whose message starts [getUsers not error:]. *)
Theorem rejection_is_wrapped (rq : request) (h : heap) (e : exn) :
  outcome_of (handle base64_text srv config rq h) = Rejected e ->
  (exists rest, e = Error (action_of rq +:+ " error: " +:+ rest))
  \/ (exists baseEntity getObj attributes ctx,
        rq = GetUsers baseEntity getObj attributes ctx
        /\ truthy (assoc "operator" getObj) = false
        /\ e = Error ("getUsers not error: supporting advanced filtering: "
                        +:+ to_string (assoc "rawFilter" getObj))).
Proof.
  destruct rq; simpl; handler_cases srv; simpl; intros [= <-];
    try (left; unfold rethrow; eauto; fail).
  destruct (getUsers_sqlQuery_throws _ _ Hquery) as [Hl | [Hop He]].
  - left. exact Hl.
  - right. eauto 8.
Qed.

(** X3. What the caller learns from the server.  When the server refuses
    the connection the call rejects with the server's message, and nothing
    is sent; when a statement fails the call rejects with the statement as
    it was sent and the server's message (for createUser and modifyUser the
    statement carries the password); when a statement succeeds the call
    resolves.  getUsers reports the client's errors under the name
    exploreUsers. *)
Theorem server_answers (rq : request) (h : heap) :
  let r := handle base64_text srv config rq h in
  (forall err, connect_error srv = Some err -> In Connect (trace r) ->
     queries (trace r) = []
     /\ outcome_of r = Rejected (Error (action_of rq +:+ " error: " +:+ client_label rq
                                  +:+ " MSSQL client connect error: " +:+ err)))
  /\ (forall q err, In q (queries (trace r)) -> exec srv q = Failed err ->
        outcome_of r = Rejected (Error (action_of rq +:+ " error: " +:+ client_label rq
                                     +:+ " MSSQL client request: " +:+ q
                                     +:+ request_error_word rq +:+ err)))
  /\ (forall q rows, In q (queries (trace r)) -> exec srv q = Rows rows ->
        exists v, outcome_of r = Resolved v).
Proof.
  cbv zeta.
  destruct rq; simpl; handler_cases srv; simpl;
    (split; [| split]);
    try (intros err' [= <-] Hin);
    try (intros err' [=] Hin);
    try (intros q' err' Hin Hf);
    try (intros q' rows' Hin Hr);
    simpl in *;
    repeat match goal with
           | H : False |- _ => destruct H
           | H : _ \/ _ |- _ => destruct H
           | H : ?a = ?b |- _ => first [discriminate H | subst a | subst b]
           end;
    try match goal with
        | H1 : exec srv ?q = _, H2 : exec srv ?q = _ |- _ =>
            rewrite H1 in H2; inversion H2; subst
        end;
    unfold rethrow; simpl;
    try (split; reflexivity);
    try reflexivity;
    eauto.
Qed.

End Calls.

(** The witness of X2: createUser for a user whose emails have no [other]
    entry, where the engine throws a TypeError. *)
Lemma rejection_is_wrapped_witness :
  exists rest,
    Error "createUser error: Cannot read properties of undefined (reading 'value')"
    = Error ("createUser error: " +:+ rest).
Proof.
  destruct (rejection_is_wrapped Base64.decode Sample.srv_ok Sample.config0
              (CreateUser JNull Sample.user_work_email Sample.ctx_none) Sample.heap0
              (Error "createUser error: Cannot read properties of undefined (reading 'value')")
              eq_refl)
    as [H | (? & ? & ? & ? & Hrq & _)].
  - exact H.
  - discriminate Hrq.
Defined.

(** The witness of X3: deleteUser on a server that refuses the connection
    and on one that fails the statement. *)
Lemma server_answers_witness :
  outcome_of (handle Base64.decode Sample.srv_refuse Sample.config0
                (DeleteUser JNull (JStr "jdoe") Sample.ctx_none) Sample.heap0)
  = Rejected (Error "deleteUser error: deleteUser MSSQL client connect error: Failed to connect to sql.example.org:1433")
  /\ outcome_of (handle Base64.decode Sample.srv_fail Sample.config0
                   (DeleteUser JNull (JStr "jdoe") Sample.ctx_none) Sample.heap0)
     = Rejected (Error "deleteUser error: deleteUser MSSQL client request: delete from [User] where UserID = 'jdoe' error: Invalid object name").
Proof.
  split.
  - destruct (server_answers Base64.decode Sample.srv_refuse Sample.config0
                (DeleteUser JNull (JStr "jdoe") Sample.ctx_none) Sample.heap0)
      as (Hrefused & _ & _).
    apply (Hrefused "Failed to connect to sql.example.org:1433").
    + reflexivity.
    + simpl. auto.
  - destruct (server_answers Base64.decode Sample.srv_fail Sample.config0
                (DeleteUser JNull (JStr "jdoe") Sample.ctx_none) Sample.heap0)
      as (_ & Hfailed & _).
    apply (Hfailed "delete from [User] where UserID = 'jdoe'" "Invalid object name").
    + simpl. auto.
    + reflexivity.
Defined.

(* ------------------------------------------------------------------- *)
(** *** deleteUser *)

Section DeleteUser.

Variable base64_text : string -> string.
Variable srv : server.
Variable config : hval.

Lemma deleteUser_queries baseEntity id ctx h q :
  In q (queries (trace (deleteUser base64_text srv config baseEntity id ctx h))) ->
  q = "delete from [User] where UserID = '" +:+ to_string id +:+ "'".
Proof.
  unfold deleteUser.
  destruct (connectionCfg base64_text config ctx h) as [h' [cfg | e]]; simpl.
  - destruct (connect_error srv); simpl; [tauto |].
    destruct (exec srv _); simpl; intuition congruence.
  - tauto.
Qed.

Lemma deleteUser_sends baseEntity id ctx h cfg :
  snd (connectionCfg base64_text config ctx h) = Ok cfg ->
  connect_error srv = None ->
  queries (trace (deleteUser base64_text srv config baseEntity id ctx h))
  = ["delete from [User] where UserID = '" +:+ to_string id +:+ "'"].
Proof.
  intros Hcfg Hconn. unfold deleteUser.
  destruct (connectionCfg base64_text config ctx h) as [h' r]. simpl in Hcfg.
  subst r. rewrite Hconn.
  destruct (exec srv _); reflexivity.
Qed.

(** X4. deleteUser selects the row by equality of UserID with the id (not
    by LIKE, as modifyUser does): that is the only statement it sends, it
    sends it whenever the connection is made, and when the server accepts
    the statement the call resolves with null, whether or not a row was
    deleted. *)
Theorem deleteUser_statement baseEntity id ctx h :
  let r := deleteUser base64_text srv config baseEntity id ctx h in
  let statement := "delete from [User] where UserID = " +:+ quoted id in
  (forall q, In q (queries (trace r)) -> q = statement)
  /\ (connect_error srv = None ->
      (exists cfg, snd (connectionCfg base64_text config ctx h) = Ok cfg) ->
      queries (trace r) = [statement]
      /\ forall rows, exec srv statement = Rows rows -> outcome_of r = Resolved JNull).
Proof.
  cbv zeta. split.
  - intros q Hq. rewrite (deleteUser_queries _ _ _ _ _ Hq). reflexivity.
  - intros Hconn [cfg Hcfg]. split.
    + rewrite (deleteUser_sends _ _ _ _ _ Hcfg Hconn). reflexivity.
    + intros rows Hrows. unfold deleteUser.
      destruct (connectionCfg base64_text config ctx h) as [h' r]. simpl in Hcfg.
      subst r. rewrite Hconn.
      change ("delete from [User] where UserID = '" +:+ to_string id +:+ "'")
        with ("delete from [User] where UserID = " +:+ quoted id).
      rewrite Hrows. reflexivity.
Qed.

(** X5. Values go into the statements character for character; a quote in
    a value ends the literal.  For all texts [a] and [b], deleteUser with
    the id [a' or UserID = 'b] sends the statement that deletes the rows of
    [a] and of [b], and getUsers with that value in a userName filter builds
    the select of both rows. *)
Theorem values_are_not_escaped baseEntity ctx h (a b : string) :
  let value := JStr (a +:+ "' or UserID = '" +:+ b) in
  (forall q,
     In q (queries (trace (deleteUser base64_text srv config baseEntity value ctx h))) ->
     q = "delete from [User] where UserID = '" +:+ a +:+ "' or UserID = '" +:+ b +:+ "'")
  /\ getUsers_sqlQuery
       [("attribute", JStr "userName"); ("operator", JStr "eq"); ("value", value)]
     = Ok ("select * from [User] where UserID = '" +:+ a +:+ "' or UserID = '" +:+ b +:+ "'").
Proof.
  cbv zeta. split.
  - intros q Hq. rewrite (deleteUser_queries _ _ _ _ _ Hq). simpl.
    now rewrite !append_assoc.
  - unfold getUsers_sqlQuery. simpl.
    now rewrite !append_assoc.
Qed.

End DeleteUser.

(** The witness of X4. *)
Lemma deleteUser_statement_witness :
  queries (trace (deleteUser Base64.decode Sample.srv_ok Sample.config0 JNull
                    (JStr "jdoe") Sample.ctx_none Sample.heap0))
  = ["delete from [User] where UserID = 'jdoe'"]
  /\ outcome_of (deleteUser Base64.decode Sample.srv_ok Sample.config0 JNull
                   (JStr "jdoe") Sample.ctx_none Sample.heap0)
     = Resolved JNull.
Proof.
  destruct (deleteUser_statement Base64.decode Sample.srv_ok Sample.config0 JNull
              (JStr "jdoe") Sample.ctx_none Sample.heap0) as (_ & Hsent).
  destruct Hsent as (Hq & Hres).
  - reflexivity.
  - eexists. vm_compute. reflexivity.
  - split; [exact Hq |]. apply (Hres [Sample.row_jdoe]). reflexivity.
Defined.

(** The witness of X5: the value [jdoe' or UserID = 'admin]. *)
Lemma values_are_not_escaped_witness :
  getUsers_sqlQuery
    [("attribute", JStr "userName"); ("operator", JStr "eq");
     ("value", JStr "jdoe' or UserID = 'admin")]
  = Ok "select * from [User] where UserID = 'jdoe' or UserID = 'admin'".
Proof.
  exact (proj2 (values_are_not_escaped Base64.decode Sample.srv_ok Sample.config0 JNull
                  Sample.ctx_none Sample.heap0 "jdoe" "admin")).
Defined.

(* ------------------------------------------------------------------- *)
(** *** modifyUser and createUser on the edges *)

Lemma length_zero_nil {A : Type} (l : list A) : length l = 0 -> l = [].
Proof. destruct l; [reflexivity | discriminate]. Qed.

Section Edges.

Variable base64_text : string -> string.
Variable srv : server.
Variable config : hval.

(** X6. A patch that gives none of the seven attributes is not refused for
    being empty.  When its emails and phoneNumbers, where given, have an
    [other] entry and the connection is made, modifyUser sends an update
    with an empty SET clause.  When a given container has no [other] entry,
    the call rejects with the TypeError of the property access, wrapped as
    a modifyUser error, before any connection. *)
Theorem modifyUser_empty_patch baseEntity id (attrObj : obj) ctx h :
  given_attributes attrObj = [] ->
  let r := modifyUser base64_text srv config baseEntity id attrObj ctx h in
  (deref_ok attrObj = true ->
   connect_error srv = None ->
   (exists cfg, snd (connectionCfg base64_text config ctx h) = Ok cfg) ->
   queries (trace r)
   = ["update [User] set  where UserID like '" +:+ to_string id +:+ "'"])
  /\ (deref_ok attrObj = false ->
      trace r = [Settle]
      /\ exists m, modifyUser_sql (defaults attrObj) = Throw (TypeError m)
                   /\ outcome_of r = Rejected (Error ("modifyUser error: " +:+ m))).
Proof.
  intros Hnone. cbv zeta. split.
  - intros Hok Hconn [cfg Hcfg].
    pose proof (modifyUser_sql_defaults attrObj Hok) as Hs.
    assert (Hset : set_clause attrObj = []).
    { apply length_zero_nil. rewrite length_set_clause, Hnone. reflexivity. }
    rewrite Hset in Hs.
    rewrite (modifyUser_sends _ _ _ _ _ _ _ _ _ _ Hs Hcfg Hconn). reflexivity.
  - intros Hok.
    destruct (modifyUser_sql_throws attrObj Hok) as [m Hm].
    unfold modifyUser. rewrite Hm. simpl.
    split; [reflexivity |]. exists m. split; reflexivity.
Qed.

(** X7. null is not "no value" for modifyUser: a patch with password null
    assigns the four-letter text 'null' to Password, where createUser for a
    user with password null inserts the SQL NULL. *)
Theorem null_password_differs baseEntity id (o : obj) ctx h :
  assoc "password" o = JNull ->
  deref_ok o = true ->
  connect_error srv = None ->
  (exists cfg, snd (connectionCfg base64_text config ctx h) = Ok cfg) ->
  (exists before after,
     queries (trace (modifyUser base64_text srv config baseEntity id o ctx h))
     = [update_statement id (before ++ ["Password='null'"] ++ after)])
  /\ (exists UserID Enabled rest,
        queries (trace (createUser base64_text srv config baseEntity o ctx h))
        = [insert_statement (UserID :: Enabled :: "null" :: rest)]).
Proof.
  intros Hnull Hok Hconn [cfg Hcfg]. split.
  - pose proof (modifyUser_sql_defaults o Hok) as Hs.
    rewrite (modifyUser_sends _ _ _ _ _ _ _ _ _ _ Hs Hcfg Hconn).
    rewrite modifyUser_sqlQuery_statement.
    unfold set_clause. rewrite Hnull.
    eexists _, _. reflexivity.
  - pose proof (createUser_insert_defaults o Hok) as Hi.
    rewrite (createUser_sends _ _ _ _ _ _ _ _ _ Hi Hcfg Hconn).
    rewrite (createUser_statement _ _ Hi), Hnull.
    eexists _, _, _. reflexivity.
Qed.

End Edges.

(** The witness of X6: the empty patch, and a patch whose emails have a
    work entry only. *)
Lemma modifyUser_empty_patch_witness :
  queries (trace (modifyUser Base64.decode Sample.srv_ok Sample.config0 JNull
                    (JStr "jdoe") [] Sample.ctx_none Sample.heap0))
  = ["update [User] set  where UserID like 'jdoe'"]
  /\ trace (modifyUser Base64.decode Sample.srv_ok Sample.config0 JNull
              (JStr "jdoe") patch_work_email Sample.ctx_none Sample.heap0)
     = [Settle].
Proof.
  split.
  - apply (modifyUser_empty_patch Base64.decode Sample.srv_ok Sample.config0 JNull
             (JStr "jdoe") [] Sample.ctx_none Sample.heap0).
    + reflexivity.
    + reflexivity.
    + reflexivity.
    + eexists. vm_compute. reflexivity.
  - apply (modifyUser_empty_patch Base64.decode Sample.srv_ok Sample.config0 JNull
             (JStr "jdoe") patch_work_email Sample.ctx_none Sample.heap0).
    + reflexivity.
    + reflexivity.
Defined.

(** The witness of X7: the object [{password: null}] as a patch and as a
    user. *)
Lemma null_password_differs_witness :
  (exists before after,
     queries (trace (modifyUser Base64.decode Sample.srv_ok Sample.config0 JNull
                       (JStr "jdoe") [("password", JNull)] Sample.ctx_none Sample.heap0))
     = [update_statement (JStr "jdoe") (before ++ ["Password='null'"] ++ after)])
  /\ (exists UserID Enabled rest,
        queries (trace (createUser Base64.decode Sample.srv_ok Sample.config0 JNull
                          [("password", JNull)] Sample.ctx_none Sample.heap0))
        = [insert_statement (UserID :: Enabled :: "null" :: rest)]).
Proof.
  apply (null_password_differs Base64.decode Sample.srv_ok Sample.config0 JNull
           (JStr "jdoe") [("password", JNull)] Sample.ctx_none Sample.heap0).
  - reflexivity.
  - reflexivity.
  - reflexivity.
  - eexists. vm_compute. reflexivity.
Defined.

(* ------------------------------------------------------------------- *)
(** *** The defaults of the input object *)

(** X8. The defaults that createUser, modifyUser and createGroup write into
    the object they are given: name, emails and phoneNumbers are set when
    they are missing or falsy, and are truthy afterwards; a property with a
    truthy value, and every other property, is left as the caller set it;
    applying the defaults again changes nothing. *)
Theorem defaults_only_fill (o : obj) :
  (forall k, truthy (assoc k o) = true -> assoc k (defaults o) = assoc k o)
  /\ (forall k, k <> "name" -> k <> "emails" -> k <> "phoneNumbers" ->
        assoc k (defaults o) = assoc k o)
  /\ truthy (assoc "name" (defaults o)) = true
  /\ truthy (assoc "emails" (defaults o)) = true
  /\ truthy (assoc "phoneNumbers" (defaults o)) = true
  /\ (forall k, assoc k (defaults (defaults o)) = assoc k (defaults o)).
Proof.
  assert (Hcases : forall (o' : obj) k,
             k = "name" \/ k = "emails" \/ k = "phoneNumbers"
             \/ (k <> "name" /\ k <> "emails" /\ k <> "phoneNumbers")).
  { intros _ k.
    destruct (String.eqb_spec k "name"); [auto |].
    destruct (String.eqb_spec k "emails"); [auto |].
    destruct (String.eqb_spec k "phoneNumbers"); auto 10. }
  assert (Hn : truthy (assoc "name" (defaults o)) = true).
  { rewrite defaults_name. destruct (truthy (assoc "name" o)) eqn:E; simpl; auto. }
  assert (He : truthy (assoc "emails" (defaults o)) = true).
  { rewrite defaults_emails. destruct (truthy (assoc "emails" o)) eqn:E; simpl; auto. }
  assert (Hp : truthy (assoc "phoneNumbers" (defaults o)) = true).
  { rewrite defaults_phoneNumbers.
    destruct (truthy (assoc "phoneNumbers" o)) eqn:E; simpl; auto. }
  assert (Hkeep : forall (o' : obj) k,
             truthy (assoc k o') = true -> assoc k (defaults o') = assoc k o').
  { intros o' k Ht.
    destruct (Hcases o' k) as [-> | [-> | [-> | (H1 & H2 & H3)]]].
    - rewrite defaults_name, Ht. reflexivity.
    - rewrite defaults_emails, Ht. reflexivity.
    - rewrite defaults_phoneNumbers, Ht. reflexivity.
    - now apply defaults_other. }
  split; [apply Hkeep |].
  split; [intros k; apply defaults_other |].
  split; [exact Hn |]. split; [exact He |]. split; [exact Hp |].
  intros k.
  destruct (Hcases o k) as [-> | [-> | [-> | (H1 & H2 & H3)]]].
  - now apply Hkeep.
  - now apply Hkeep.
  - now apply Hkeep.
  - now rewrite !defaults_other.
Qed.

(** The witness of X8: a user with a name and no emails. *)
Lemma defaults_only_fill_witness :
  assoc "name" (defaults Sample.user_no_externalId)
  = JObj [("familyName", JStr "Doe")]
  /\ assoc "userName" (defaults Sample.user_no_externalId) = JStr "jdoe".
Proof.
  destruct (defaults_only_fill Sample.user_no_externalId) as (Hkeep & Hother & _).
  split.
  - apply (Hkeep "name"). reflexivity.
  - apply (Hother "userName"); discriminate.
Defined.

(* ------------------------------------------------------------------- *)
(** *** createGroup *)

Lemma createGroup_statement_of (g : obj) :
  createGroup_sqlQuery (createGroup_insert (defaults g))
  = group_statement (quoted (assoc "externalId" g))
      (sql_literal (assoc "displayName" g)).
Proof.
  unfold createGroup_sqlQuery, createGroup_insert, group_statement. simpl.
  rewrite !defaults_other by discriminate.
  rewrite to_string_quoted_or_null. reflexivity.
Qed.

Section CreateGroup.

Variable base64_text : string -> string.
Variable srv : server.
Variable config : hval.

(** The run of createGroup, with the statement written from the input. *)
Lemma createGroup_run baseEntity (groupObj : obj) ctx h :
  createGroup base64_text srv config baseEntity groupObj ctx h
  = let statement := group_statement (quoted (assoc "externalId" groupObj))
                       (sql_literal (assoc "displayName" groupObj)) in
    match connectionCfg base64_text config ctx h with
    | (h', Throw e) =>
        {| store_after := h'; trace := [Settle];
           outcome_of := Rejected (rethrow "createGroup" e) |}
    | (h', Ok cfg) =>
        match connect_error srv with
        | Some err =>
            {| store_after := h';
               trace := [NewConnection cfg; Connect; Settle];
               outcome_of := Rejected (rethrow "createGroup"
                 (Error ("createGroup MSSQL client connect error: " +:+ err))) |}
        | None =>
            match exec srv statement with
            | Failed err =>
                {| store_after := h';
                   trace := [NewConnection cfg; Connect; ExecSql statement; Close; Settle];
                   outcome_of := Rejected (rethrow "createGroup"
                     (Error ("createGroup MSSQL client request: " +:+ statement
                               +:+ " error: " +:+ err))) |}
            | Rows _ =>
                {| store_after := h';
                   trace := [NewConnection cfg; Connect; ExecSql statement; Close; Settle];
                   outcome_of := Resolved JNull |}
            end
        end
    end.
Proof.
  unfold createGroup. cbv zeta. rewrite createGroup_statement_of. reflexivity.
Qed.

(** X9. createGroup inserts into table Group the quoted externalId as
    GroupID and the display name, or NULL when there is none, as
    DisplayName: no other statement is sent, and this one is sent whenever
    the connection is made. *)
Theorem createGroup_statement baseEntity (groupObj : obj) ctx h :
  let r := createGroup base64_text srv config baseEntity groupObj ctx h in
  let statement := group_statement (quoted (assoc "externalId" groupObj))
                     (sql_literal (assoc "displayName" groupObj)) in
  (forall q, In q (queries (trace r)) -> q = statement)
  /\ (connect_error srv = None ->
      (exists cfg, snd (connectionCfg base64_text config ctx h) = Ok cfg) ->
      queries (trace r) = [statement]).
Proof.
  cbv zeta. rewrite createGroup_run. cbv zeta.
  destruct (connectionCfg base64_text config ctx h) as [h' [cfg | e]]; simpl.
  - destruct (connect_error srv) eqn:Hconn; simpl.
    + split; [tauto | discriminate].
    + destruct (exec srv _); simpl; (split; [intuition congruence | reflexivity]).
  - split; [tauto |]. intros _ [cfg Hcfg]. discriminate.
Qed.

(** X10. The members of a group never reach the database: whatever the
    members of the object, createGroup makes the same run (the same
    statement, the same outcome, the same store). *)
Theorem createGroup_ignores_members baseEntity (groupObj : obj) (members : jsval) ctx h :
  createGroup base64_text srv config baseEntity (assoc_set "members" members groupObj) ctx h
  = createGroup base64_text srv config baseEntity groupObj ctx h.
Proof.
  rewrite !createGroup_run.
  rewrite !assoc_set_neq by discriminate. reflexivity.
Qed.

End CreateGroup.

(** The witness of X9: a group with a display name. *)
Lemma createGroup_statement_witness :
  queries (trace (createGroup Base64.decode Sample.srv_ok Sample.config0 JNull
                    [("externalId", JStr "Admins"); ("displayName", JStr "Admins");
                     ("members", JArr [JObj [("value", JStr "jdoe")]])]
                    Sample.ctx_none Sample.heap0))
  = [ "insert into [Group] (GroupID, DisplayName)" +:+ newline
      +:+ "                values ('Admins', 'Admins')" ].
Proof.
  destruct (createGroup_statement Base64.decode Sample.srv_ok Sample.config0 JNull
              [("externalId", JStr "Admins"); ("displayName", JStr "Admins");
               ("members", JArr [JObj [("value", JStr "jdoe")]])]
              Sample.ctx_none Sample.heap0) as (_ & Hsent).
  rewrite Hsent.
  - reflexivity.
  - reflexivity.
  - eexists. vm_compute. reflexivity.
Defined.

(* ------------------------------------------------------------------- *)
(** *** The result of getUsers *)

(** X11. When the statement succeeds, getUsers resolves with one SCIM user
    for each row the server returned, in the order of the rows, and with
    totalResults null: the plugin neither filters nor counts. *)
Theorem getUsers_resolves_rows (base64_text : string -> string) (srv : server)
    (config : hval) baseEntity (getObj : obj) attributes ctx h sqlQuery rows :
  getUsers_sqlQuery getObj = Ok sqlQuery ->
  (exists cfg, snd (connectionCfg base64_text config ctx h) = Ok cfg) ->
  connect_error srv = None ->
  exec srv sqlQuery = Rows rows ->
  let r := getUsers base64_text srv config baseEntity getObj attributes ctx h in
  outcome_of r
  = Resolved (JObj [("Resources", JArr (map scimUser rows)); ("totalResults", JNull)])
  /\ queries (trace r) = [sqlQuery].
Proof.
  intros Hq [cfg Hcfg] Hconn Hrows. cbv zeta. unfold getUsers. rewrite Hq.
  destruct (connectionCfg base64_text config ctx h) as [h' r]. simpl in Hcfg.
  subst r. rewrite Hconn, Hrows. split; reflexivity.
Qed.

(** The witness of X11: all users, on a server with the row of jdoe. *)
Lemma getUsers_resolves_rows_witness :
  outcome_of (getUsers Base64.decode Sample.srv_ok Sample.config0 JNull
                Sample.filter_none JNull Sample.ctx_none Sample.heap0)
  = Resolved (JObj [("Resources", JArr [scimUser Sample.row_jdoe]);
                    ("totalResults", JNull)])
  /\ queries (trace (getUsers Base64.decode Sample.srv_ok Sample.config0 JNull
                       Sample.filter_none JNull Sample.ctx_none Sample.heap0))
     = ["select * from [User]"].
Proof.
  apply (getUsers_resolves_rows Base64.decode Sample.srv_ok Sample.config0 JNull
           Sample.filter_none JNull Sample.ctx_none Sample.heap0
           "select * from [User]" [Sample.row_jdoe]).
  - reflexivity.
  - eexists. vm_compute. reflexivity.
  - reflexivity.
  - reflexivity.
Defined.

(** X12. The Password column is selected and never returned: whatever the
    server has in the Password column of its rows, getUsers makes the same
    run and resolves with the same users, none of which has a password
    member. *)
Theorem getUsers_without_passwords (base64_text : string -> string) (srv : server)
    (config : hval) baseEntity (getObj : obj) attributes ctx h (p : jsval) :
  getUsers base64_text (with_Passwords p srv) config baseEntity getObj attributes ctx h
  = getUsers base64_text srv config baseEntity getObj attributes ctx h
  /\ forall r, opt_get (scimUser r) "password" = JUndefined.
Proof.
  split; [| reflexivity].
  unfold getUsers.
  destruct (getUsers_sqlQuery getObj) as [q | e]; [| reflexivity].
  destruct (connectionCfg base64_text config ctx h) as [h' [cfg | e]]; [| reflexivity].
  simpl. destruct (connect_error srv); [reflexivity |].
  destruct (exec srv q) as [err | rows]; [reflexivity |].
  rewrite map_map. reflexivity.
Qed.

(* ------------------------------------------------------------------- *)
(** *** The credential decoder, case by case *)

Lemma split_without (c : ascii) (s : string) :
  has_char c s = false -> split c s = [s].
Proof.
  induction s as [| x s IH]; simpl; [reflexivity |].
  destruct (Ascii.eqb x c); simpl; [discriminate |].
  intros H. now rewrite (IH H).
Qed.

Lemma split_at_first (c : ascii) (a b : string) :
  has_char c a = false -> split c (a +:+ String c b) = a :: split c b.
Proof.
  induction a as [| x a IH]; simpl.
  - now rewrite Ascii.eqb_refl.
  - destruct (Ascii.eqb x c); simpl; [discriminate |].
    intros H. now rewrite (IH H).
Qed.

Section Decoder.

Variable base64_text : string -> string.

(** X13. Basic credentials.  When the token decodes to a non-empty user
    name without a colon, a colon and a password, the decoder returns the
    two; the password ends at its first colon, so a password that contains
    a colon is cut there; and a decoded text without any colon gives the
    user name and no password. *)
Theorem getCtxAuth_basic_credentials ctx (token user : string) :
  authorization ctx = JStr ("Basic " +:+ token) ->
  has_char " " token = false ->
  user <> "" ->
  has_char ":" user = false ->
  (forall password,
     has_char ":" password = false ->
     base64_text token = user +:+ ":" +:+ password ->
     getCtxAuth base64_text ctx = Ok (PStr user, PStr password))
  /\ (forall password rest,
        has_char ":" password = false ->
        base64_text token = user +:+ ":" +:+ password +:+ ":" +:+ rest ->
        getCtxAuth base64_text ctx = Ok (PStr user, PStr password))
  /\ (base64_text token = user ->
      getCtxAuth base64_text ctx = Ok (PStr user, PUndefined)).
Proof.
  intros Hauth Htoken Hne Huser.
  assert (Hsplit : split " " ("Basic " +:+ token) = "Basic" :: token :: []).
  { change ("Basic " +:+ token) with ("Basic" +:+ String " " token).
    rewrite split_at_first by reflexivity.
    now rewrite split_without. }
  split; [| split].
  - intros password Hpw Hdec.
    rewrite (getCtxAuth_basic base64_text ctx _ token [] user Hauth Hsplit).
    + rewrite Hdec. change (user +:+ ":" +:+ password) with (user +:+ String ":" password).
      rewrite split_at_first by exact Huser.
      now rewrite split_without.
    + rewrite Hdec. change (user +:+ ":" +:+ password) with (user +:+ String ":" password).
      now rewrite split_at_first.
    + exact Hne.
  - intros password rest Hpw Hdec.
    assert (Hfields : split ":" (base64_text token)
                      = user :: password :: split ":" rest).
    { rewrite Hdec.
      change (user +:+ ":" +:+ password +:+ ":" +:+ rest)
        with (user +:+ String ":" (password +:+ String ":" rest)).
      now rewrite !split_at_first. }
    rewrite (getCtxAuth_basic base64_text ctx _ token [] user Hauth Hsplit).
    + now rewrite Hfields.
    + now rewrite Hfields.
    + exact Hne.
  - intros Hdec.
    rewrite (getCtxAuth_basic base64_text ctx _ token [] user Hauth Hsplit).
    + rewrite Hdec, split_without by exact Huser. reflexivity.
    + rewrite Hdec, split_without by exact Huser. reflexivity.
    + exact Hne.
Qed.

(** X14. Any other scheme.  A header of a scheme other than [Basic] (the
    comparison is exact: [basic] is another scheme) gives no user name and,
    as the password, the text between the first and the second space; a
    header without a space gives no password at all. *)
Theorem getCtxAuth_other_schemes ctx (scheme : string) :
  scheme <> "Basic" ->
  has_char " " scheme = false ->
  (forall token,
     has_char " " token = false ->
     authorization ctx = JStr (scheme +:+ " " +:+ token) ->
     getCtxAuth base64_text ctx = Ok (PUndefined, PStr token))
  /\ (forall token rest,
        has_char " " token = false ->
        authorization ctx = JStr (scheme +:+ " " +:+ token +:+ " " +:+ rest) ->
        getCtxAuth base64_text ctx = Ok (PUndefined, PStr token))
  /\ (scheme <> "" ->
      authorization ctx = JStr scheme ->
      getCtxAuth base64_text ctx = Ok (PUndefined, PUndefined)).
Proof.
  intros Hscheme Hnosp.
  assert (Hnonempty : forall s : string, scheme +:+ String " " s <> "").
  { intros s. destruct scheme; simpl; discriminate. }
  split; [| split].
  - intros token Htoken Hauth.
    change (scheme +:+ " " +:+ token) with (scheme +:+ String " " token) in Hauth.
    rewrite (getCtxAuth_other_scheme base64_text ctx _ Hauth (Hnonempty _)).
    + rewrite split_at_first by exact Hnosp. now rewrite split_without.
    + rewrite split_at_first by exact Hnosp. unfold item; simpl. congruence.
  - intros token rest Htoken Hauth.
    change (scheme +:+ " " +:+ token +:+ " " +:+ rest)
      with (scheme +:+ String " " (token +:+ String " " rest)) in Hauth.
    rewrite (getCtxAuth_other_scheme base64_text ctx _ Hauth (Hnonempty _)).
    + now rewrite !split_at_first.
    + rewrite split_at_first by exact Hnosp. unfold item; simpl. congruence.
  - intros Hne Hauth.
    rewrite (getCtxAuth_other_scheme base64_text ctx _ Hauth Hne).
    + now rewrite split_without.
    + rewrite split_without by exact Hnosp. unfold item; simpl. congruence.
Qed.

End Decoder.

(** The witness of X13: user jdoe with the passwords [s3cret] and
    [s3:cret]. *)
Lemma getCtxAuth_basic_credentials_witness :
  getCtxAuth Base64.decode Sample.ctx_basic = Ok (PStr "jdoe", PStr "s3cret")
  /\ getCtxAuth Base64.decode (Sample.ctx_with "Basic amRvZTpzMzpjcmV0")
     = Ok (PStr "jdoe", PStr "s3").
Proof.
  split.
  - destruct (getCtxAuth_basic_credentials Base64.decode Sample.ctx_basic
                "amRvZTpzM2NyZXQ=" "jdoe") as (Hpair & _ & _).
    + reflexivity.
    + reflexivity.
    + discriminate.
    + reflexivity.
    + apply Hpair; reflexivity.
  - destruct (getCtxAuth_basic_credentials Base64.decode
                (Sample.ctx_with "Basic amRvZTpzMzpjcmV0")
                "amRvZTpzMzpjcmV0" "jdoe") as (_ & Hcut & _).
    + reflexivity.
    + reflexivity.
    + discriminate.
    + reflexivity.
    + apply (Hcut "s3" "cret"); reflexivity.
Defined.

(** The witness of X14: a Bearer header, and [basic] in lower case. *)
Lemma getCtxAuth_other_schemes_witness :
  getCtxAuth Base64.decode Sample.ctx_bearer = Ok (PUndefined, PStr "abc.def")
  /\ getCtxAuth Base64.decode (Sample.ctx_with "basic amRvZTpzM2NyZXQ=")
     = Ok (PUndefined, PStr "amRvZTpzM2NyZXQ=").
Proof.
  split.
  - destruct (getCtxAuth_other_schemes Base64.decode Sample.ctx_bearer "Bearer")
      as (Htoken & _ & _).
    + discriminate.
    + reflexivity.
    + apply Htoken; reflexivity.
  - destruct (getCtxAuth_other_schemes Base64.decode
                (Sample.ctx_with "basic amRvZTpzM2NyZXQ=") "basic")
      as (Htoken & _ & _).
    + discriminate.
    + reflexivity.
    + apply Htoken; reflexivity.
Defined.

(* ------------------------------------------------------------------- *)
(** *** A header the decoder throws on *)

Lemma seq_throws_later {A B : Type} (m : M A) (k : A -> M B) :
  (forall a h, exists e, snd (k a h) = Throw e) ->
  forall h, exists e, snd (seq m k h) = Throw e.
Proof.
  intros Hk h. unfold seq. destruct (m h) as [h' [a | e]]; simpl; eauto.
Qed.

Lemma seq_lift_throws {A B : Type} (e : exn) (k : A -> M B) :
  forall h, exists e', snd (seq (lift (Throw e)) k h) = Throw e'.
Proof.
  intros h. unfold seq, lift. simpl. eauto.
Qed.

Lemma getCtxAuth_throws_header (base64_text : string -> string) ctx e :
  getCtxAuth base64_text ctx = Throw e -> truthy (authorization ctx) = true.
Proof.
  unfold getCtxAuth. destruct (truthy (authorization ctx)); simpl;
    [reflexivity | discriminate].
Qed.

Section DecoderThrows.

Variable base64_text : string -> string.
Variable srv : server.
Variable config : hval.

Lemma connectionCfg_decoder_throws ctx e :
  getCtxAuth base64_text ctx = Throw e ->
  forall h, exists e', snd (connectionCfg base64_text config ctx h) = Throw e'.
Proof.
  intros Hthrow. pose proof (getCtxAuth_throws_header _ _ _ Hthrow) as Hauth.
  unfold connectionCfg. rewrite Hauth, Hthrow.
  repeat first [ apply seq_lift_throws | apply seq_throws_later; intros ? ].
Qed.

(** X15. A header the decoder cannot read ([Basic] without a token, where
    [Buffer.from] throws) stops the call before it has a connection: the
    handlers that work on a connection reject, and no connection is made
    and no statement sent. *)
Theorem undecodable_header_rejects (rq : request) (h : heap) (e : exn) :
  getCtxAuth base64_text (ctx_of rq) = Throw e ->
  let r := handle base64_text srv config rq h in
  trace r = [Settle]
  /\ (connects rq = true -> exists e', outcome_of r = Rejected e').
Proof.
  intros Hthrow. cbv zeta.
  destruct rq; simpl in *;
    try (split; [reflexivity | discriminate]);
    destruct (connectionCfg_decoder_throws _ _ Hthrow h) as [e' He'];
    unfold getUsers, createUser, deleteUser, modifyUser, createGroup;
    repeat lazymatch goal with
      | |- context [match getUsers_sqlQuery ?g with _ => _ end] =>
          destruct (getUsers_sqlQuery g)
      | |- context [match createUser_insert ?u with _ => _ end] =>
          destruct (createUser_insert u)
      | |- context [match modifyUser_sql ?a with _ => _ end] =>
          destruct (modifyUser_sql a)
      end;
    try (simpl; (split; [reflexivity | eauto]); fail);
    destruct (connectionCfg base64_text config ctx h) as [h' res];
    simpl in He'; subst res; simpl; (split; [reflexivity | eauto]).
Qed.

End DecoderThrows.

(** The witness of X15: deleteUser with the header [Basic]. *)
Lemma undecodable_header_rejects_witness :
  trace (handle Base64.decode Sample.srv_ok Sample.config0
           (DeleteUser JNull (JStr "jdoe") (Sample.ctx_with "Basic")) Sample.heap0)
  = [Settle].
Proof.
  destruct (undecodable_header_rejects Base64.decode Sample.srv_ok Sample.config0
              (DeleteUser JNull (JStr "jdoe") (Sample.ctx_with "Basic")) Sample.heap0
              (TypeError "The first argument must be of type string or an instance of Buffer, ArrayBuffer, or Array or an Array-like Object."))
    as [Htrace _].
  - reflexivity.
  - exact Htrace.
Defined.

(* ------------------------------------------------------------------- *)
(** *** Pass-through credentials in the connection configuration *)

Lemma field_field_set_same (k : string) (x : hval) (o : hobj) :
  field k (field_set k x o) = x.
Proof.
  induction o as [| [k' v] o IH]; simpl.
  - now rewrite String.eqb_refl.
  - destruct (String.eqb k k') eqn:E; simpl; rewrite ?String.eqb_refl, ?E; auto.
Qed.

Lemma field_field_set_other (k k' : string) (x : hval) (o : hobj) :
  k' <> k -> field k' (field_set k x o) = field k' o.
Proof.
  intros Hne. apply String.eqb_neq in Hne.
  induction o as [| [k'' v] o IH]; simpl.
  - now rewrite Hne.
  - destruct (String.eqb k k'') eqn:E; simpl.
    + apply String.eqb_eq in E. subst k''. now rewrite Hne.
    + now rewrite IH.
Qed.

Lemma deref_alter (f : hobj -> hobj) (l l' : loc) (h : heap) :
  deref (alter f l h) l'
  = if decide (l = l') then (if decide (l < length h) then f (deref h l) else [])
    else deref h l'.
Proof.
  unfold deref. rewrite list_lookup_alter.
  destruct (decide (l = l')) as [<- | Hne]; [| reflexivity].
  destruct (decide (l < length h)) as [Hlt | Hge].
  - destruct (lookup_lt_is_Some_2 h l Hlt) as [o Ho]. now rewrite Ho.
  - rewrite (lookup_ge_None_2 h l) by lia. reflexivity.
Qed.

(** A write to a property leaves every other property of every object as
    it reads. *)
Lemma read_alter_other (k k' : string) (x : hval) (l : loc) (h : heap) (v : hval) :
  k' <> k -> read (alter (field_set k x) l h) v k' = read h v k'.
Proof.
  intros Hne. destruct v as [p | l']; [reflexivity |].
  simpl. rewrite deref_alter.
  destruct (decide (l = l')) as [<- | ?]; [| reflexivity].
  destruct (decide (l < length h)) as [Hlt | Hge].
  - now rewrite field_field_set_other.
  - unfold deref. rewrite (lookup_ge_None_2 h l) by lia. reflexivity.
Qed.

(** A write to a property of an object of the store is read back. *)
Lemma read_alter_same (k : string) (x : hval) (l : loc) (h : heap) :
  l < length h -> read (alter (field_set k x) l h) (HRef l) k = Ok x.
Proof.
  intros Hlt. simpl. rewrite deref_alter.
  rewrite decide_True by reflexivity. rewrite decide_True by exact Hlt.
  now rewrite field_field_set_same.
Qed.

Lemma in_range_mono (h h' : heap) (v : hval) :
  length h <= length h' -> in_range h v -> in_range h' v.
Proof.
  destruct v; simpl; [auto | lia].
Qed.

Lemma Forall_in_range_mono (h h' : heap) (o : hobj) :
  length h <= length h' ->
  Forall (fun kv => in_range h kv.2) o -> Forall (fun kv => in_range h' kv.2) o.
Proof.
  intros Hle Ho. eapply Forall_impl; [exact Ho |].
  intros kv. now apply in_range_mono.
Qed.

Lemma sound_alloc (n : nat) (h : heap) (o : hobj) :
  sound n h -> Forall (fun kv => in_range h kv.2) o -> sound n (h ++ [o]).
Proof.
  intros Hs Ho l o' Hl Hlook.
  assert (Hle : length h <= length (h ++ [o])) by (rewrite length_app; lia).
  destruct (decide (l < length h)) as [Hlt | Hge].
  - rewrite lookup_app_l in Hlook by exact Hlt.
    eapply Forall_in_range_mono; [exact Hle |]. exact (Hs l o' Hl Hlook).
  - rewrite lookup_app_r in Hlook by lia.
    destruct (l - length h) as [| m]; simpl in Hlook; [| discriminate].
    injection Hlook as <-.
    eapply Forall_in_range_mono; [exact Hle | exact Ho].
Qed.

Lemma in_range_field_set (h : heap) (k : string) (x : hval) (o : hobj) :
  in_range h x ->
  Forall (fun kv => in_range h kv.2) o ->
  Forall (fun kv => in_range h kv.2) (field_set k x o).
Proof.
  intros Hx. induction 1 as [| [k' v] o Hv Ho IH]; simpl.
  - repeat constructor. exact Hx.
  - destruct (String.eqb k k'); constructor; auto.
Qed.

Lemma sound_write (n : nat) (h : heap) (l : loc) (k : string) (x : hval) :
  sound n h -> in_range h x -> sound n (alter (field_set k x) l h).
Proof.
  intros Hs Hx l' o Hl' Hlook.
  assert (Hlen : length h <= length (alter (field_set k x) l h))
    by (rewrite length_alter; lia).
  rewrite list_lookup_alter in Hlook.
  destruct (decide (l = l')) as [<- | Hne].
  - destruct (h !! l) as [o' |] eqn:Ho; simpl in Hlook; [| discriminate].
    injection Hlook as <-.
    eapply Forall_in_range_mono; [exact Hlen |].
    apply in_range_field_set; [exact Hx |]. exact (Hs l o' Hl' Ho).
  - eapply Forall_in_range_mono; [exact Hlen |]. exact (Hs l' o Hl' Hlook).
Qed.

Lemma in_range_field (h : heap) (k : string) (o : hobj) :
  Forall (fun kv => in_range h kv.2) o -> in_range h (field k o).
Proof.
  induction 1 as [| [k' v] o Hv Ho IH]; simpl; [exact I |].
  destruct (String.eqb k k'); auto.
Qed.

Section KeepsSound.

Variable n : nat.

Lemma copy_props_sound (copy : heap -> hval -> option (heap * hval)) :
  (forall h v h' v', sound n h -> copy h v = Some (h', v') ->
     sound n h' /\ in_range h' v' /\ length h <= length h') ->
  forall ps h h' o', sound n h -> copy_props copy ps h = Some (h', o') ->
    sound n h' /\ Forall (fun kv => in_range h' kv.2) o' /\ length h <= length h'.
Proof.
  intros Hcopy. induction ps as [| [k x] ps IH]; intros h h' o' Hs; simpl.
  - intros [= <- <-]. repeat split; [exact Hs | constructor | lia].
  - destruct (copy h x) as [[h1 x'] |] eqn:Hx; [| discriminate].
    destruct (Hcopy _ _ _ _ Hs Hx) as (Hs1 & Hx' & Hle1).
    destruct (copy_props copy ps h1) as [[h2 rest'] |] eqn:Hrest; [| discriminate].
    destruct (IH _ _ _ Hs1 Hrest) as (Hs2 & Hall & Hle2).
    intros [= <- <-]. repeat split; [exact Hs2 | | lia].
    constructor; [| exact Hall]. simpl. now apply (in_range_mono h1).
Qed.

Lemma copy_rec_sound (fuel : nat) :
  forall h v h' v', sound n h -> copy_rec fuel h v = Some (h', v') ->
    sound n h' /\ in_range h' v' /\ length h <= length h'.
Proof.
  induction fuel as [| fuel IH]; intros h v h' v' Hs; destruct v as [p | l]; simpl.
  - intros [= <- <-]. repeat split; [exact Hs | lia].
  - discriminate.
  - intros [= <- <-]. repeat split; [exact Hs | lia].
  - destruct (copy_props (copy_rec fuel) (deref h l) h) as [[h1 o'] |] eqn:Hps;
      [| discriminate].
    destruct (copy_props_sound _ IH _ _ _ _ Hs Hps) as (Hs1 & Hall & Hle).
    intros [= <- <-]. repeat split.
    + now apply sound_alloc.
    + simpl. rewrite length_app. simpl. lia.
    + rewrite length_app. lia.
Qed.

Lemma keeps_sound_ret {A : Type} (a : A) : keeps_sound n (ret a).
Proof. intros h Hs. simpl. split; [exact Hs | lia]. Qed.

Lemma keeps_sound_lift {A : Type} (r : result A) : keeps_sound n (lift r).
Proof. intros h Hs. simpl. split; [exact Hs | lia]. Qed.

Lemma keeps_sound_read (v : hval) (k : string) : keeps_sound n (m_read v k).
Proof. intros h Hs. simpl. split; [exact Hs | lia]. Qed.

Lemma keeps_sound_seq {A B : Type} (m : M A) (k : A -> M B) :
  keeps_sound n m -> (forall a, keeps_sound n (k a)) -> keeps_sound n (seq m k).
Proof.
  intros Hm Hk h Hs. unfold seq.
  destruct (Hm h Hs) as [Hs' Hle].
  destruct (m h) as [h' [a | e]]; simpl in *.
  - destruct (Hk a h' Hs') as [Hs'' Hle']. split; [exact Hs'' | lia].
  - split; [exact Hs' | exact Hle].
Qed.

Lemma keeps_sound_write_prim (v : hval) (k : string) (p : prim) :
  keeps_sound n (m_write v k (HPrim p)).
Proof.
  intros h Hs. unfold m_write, write.
  destruct v as [[| | | |] | l]; simpl; try (split; [exact Hs | lia]).
  split; [now apply sound_write | rewrite length_alter; lia].
Qed.

Lemma keeps_sound_alloc_write (v : hval) (k : string) :
  keeps_sound n (seq (m_alloc []) (fun o => m_write v k o)).
Proof.
  intros h Hs. unfold seq, m_alloc, alloc, m_write, write. simpl.
  assert (Hs' : sound n (h ++ [[]])) by (apply sound_alloc; [exact Hs | constructor]).
  assert (Hle : length h <= length (h ++ [[]])) by (rewrite length_app; lia).
  destruct v as [[| | | |] | l]; simpl; try (split; [exact Hs' | exact Hle]).
  split.
  - apply sound_write; [exact Hs' |]. simpl. rewrite length_app. simpl. lia.
  - rewrite length_alter. exact Hle.
Qed.

Lemma keeps_sound_copyObj (v : hval) : keeps_sound n (m_copyObj v).
Proof.
  intros h Hs. unfold m_copyObj, copyObj.
  destruct (copy_rec (S (length h)) h v) as [[h' v'] |] eqn:Hc; simpl.
  - destruct (copy_rec_sound _ _ _ _ _ Hs Hc) as (Hs' & _ & Hle). auto.
  - split; [exact Hs | lia].
Qed.

End KeepsSound.

Ltac keeps_sound_step :=
  lazymatch goal with
  | |- keeps_sound _ (seq (m_alloc []) _) => apply keeps_sound_alloc_write
  | |- keeps_sound _ (seq _ _) => apply keeps_sound_seq; [| intros ?]
  | |- keeps_sound _ (m_read _ _) => apply keeps_sound_read
  | |- keeps_sound _ (m_write _ _ (HPrim _)) => apply keeps_sound_write_prim
  | |- keeps_sound _ (m_copyObj _) => apply keeps_sound_copyObj
  | |- keeps_sound _ (lift _) => apply keeps_sound_lift
  | |- keeps_sound _ (ret _) => apply keeps_sound_ret
  | |- keeps_sound _ (if ?b then _ else _) => destruct b
  end.

Lemma connectionCfg_keeps_sound (base64_text : string -> string) (config : hval)
    (ctx : jsval) (n : nat) :
  keeps_sound n (connectionCfg base64_text config ctx).
Proof.
  unfold connectionCfg. repeat keeps_sound_step.
Qed.

(** Inversion of a computation that returns. *)
Lemma seq_inv {A B : Type} (m : M A) (k : A -> M B) (h h' : heap) (b : B) :
  seq m k h = (h', Ok b) -> exists a h1, m h = (h1, Ok a) /\ k a h1 = (h', Ok b).
Proof.
  unfold seq. destruct (m h) as [h1 [a | e]]; [eauto | discriminate].
Qed.

Lemma m_read_inv (v : hval) (k : string) (h h' : heap) (a : hval) :
  m_read v k h = (h', Ok a) -> h' = h /\ read h v k = Ok a.
Proof. unfold m_read. intros [= <- H]. auto. Qed.

Lemma m_write_inv (v : hval) (k : string) (x : hval) (h h' : heap) (u : unit) :
  m_write v k x h = (h', Ok u) ->
  exists l, v = HRef l /\ h' = alter (field_set k x) l h.
Proof.
  unfold m_write, write.
  destruct v as [[| | | |] | l]; simpl; try discriminate.
  intros [= <-]. eauto.
Qed.

Lemma lift_inv {A : Type} (r : result A) (h h' : heap) (a : A) :
  lift r h = (h', Ok a) -> h' = h /\ r = Ok a.
Proof. unfold lift. intros [= <- H]. auto. Qed.

Lemma ret_inv {A : Type} (a b : A) (h h' : heap) :
  ret a h = (h', Ok b) -> h' = h /\ b = a.
Proof. unfold ret. intros [= <- <-]. auto. Qed.

Lemma read_ref_inv (h : heap) (v : hval) (k : string) (l : loc) :
  read h v k = Ok (HRef l) ->
  exists lv o, v = HRef lv /\ h !! lv = Some o /\ field k o = HRef l.
Proof.
  destruct v as [[| | | |] | lv]; simpl; try discriminate.
  unfold deref. destruct (h !! lv) as [o |] eqn:Ho; simpl.
  - intros [= H]. eauto.
  - discriminate.
Qed.

Section PassThrough.

Variable base64_text : string -> string.
Variable config : hval.

(** The end of the block of lines 111-119, from the decoded credentials
    on: what it reads and writes in the store it starts from. *)
Lemma set_credentials_inv ctx (cfg cfg' : hval) (username password : prim)
    (h4 h' : heap) :
  getCtxAuth base64_text ctx = Ok (username, password) ->
  (let* up := lift (getCtxAuth base64_text ctx) in
   let username := fst up in
   let password := snd up in
   let* a := m_read cfg "authentication" in
   let* o := m_read a "options" in
   let* _ := m_write o "password" (HPrim password) in
   let* _ :=
     (if prim_truthy username then
        let* a := m_read cfg "authentication" in
        let* o := m_read a "options" in
        m_write o "userName" (HPrim username)
      else ret tt) in
   ret cfg) h4 = (h', Ok cfg') ->
  cfg' = cfg
  /\ exists a lo,
       read h4 cfg "authentication" = Ok a
       /\ read h4 a "options" = Ok (HRef lo)
       /\ h' = (if prim_truthy username
                then alter (field_set "userName" (HPrim username)) lo
                       (alter (field_set "password" (HPrim password)) lo h4)
                else alter (field_set "password" (HPrim password)) lo h4).
Proof.
  intros Hdec Hrun.
  apply seq_inv in Hrun as (up & h5 & Hup & Hrun).
  apply lift_inv in Hup as [-> Hup]. rewrite Hdec in Hup. injection Hup as <-.
  cbv zeta in Hrun. simpl fst in Hrun. simpl snd in Hrun.
  apply seq_inv in Hrun as (a & h5 & Ha & Hrun). apply m_read_inv in Ha as [-> Ha].
  apply seq_inv in Hrun as (o & h5 & Ho & Hrun). apply m_read_inv in Ho as [-> Ho].
  apply seq_inv in Hrun as (u & h5 & Hw & Hrun).
  apply m_write_inv in Hw as (lo & -> & ->).
  apply seq_inv in Hrun as (u' & h6 & Hif & Hrun).
  apply ret_inv in Hrun as [-> ->].
  split; [reflexivity |]. exists a, lo. split; [exact Ha |]. split; [exact Ho |].
  destruct (prim_truthy username).
  - apply seq_inv in Hif as (a' & h7 & Ha' & Hif). apply m_read_inv in Ha' as [-> Ha'].
    apply seq_inv in Hif as (o' & h7 & Ho' & Hif). apply m_read_inv in Ho' as [-> Ho'].
    apply m_write_inv in Hif as (lo' & -> & ->).
    rewrite read_alter_other in Ha' by discriminate.
    assert (a' = a) as -> by congruence.
    rewrite read_alter_other in Ho' by discriminate.
    assert (lo' = lo) as -> by congruence.
    reflexivity.
  - apply ret_inv in Hif as [-> _]. reflexivity.
Qed.

(** X16. Pass-through credentials reach the connection.  When the request
    carries an authorization header and the connection configuration is
    built, the configuration handed to the connection has the decoder's
    password as [authentication.options.password], and the decoder's user
    name as [authentication.options.userName] when the decoder returned
    one. *)
Theorem pass_through_credentials ctx (h h' : heap) (cfg : hval)
    (username password : prim) :
  truthy (authorization ctx) = true ->
  getCtxAuth base64_text ctx = Ok (username, password) ->
  connectionCfg base64_text config ctx h = (h', Ok cfg) ->
  credential h' cfg "password" = Ok (HPrim password)
  /\ (prim_truthy username = true ->
      credential h' cfg "userName" = Ok (HPrim username)).
Proof.
  intros Hauth Hdec Hrun.
  (* what the whole block keeps *)
  destruct (connectionCfg_keeps base64_text config h ctx h (extends_refl h))
    as [Hext Hfresh].
  rewrite Hrun in Hext, Hfresh. simpl in Hext, Hfresh.
  specialize (Hfresh cfg eq_refl).
  assert (Hsound0 : sound (length h) h).
  { intros l o Hl Ho. apply lookup_lt_Some in Ho. lia. }
  destruct (connectionCfg_keeps_sound base64_text config ctx (length h) h Hsound0)
    as [Hsound _].
  rewrite Hrun in Hsound. simpl in Hsound.
  (* the end of the block *)
  unfold connectionCfg in Hrun. rewrite Hauth in Hrun.
  do 10 (apply seq_inv in Hrun as (? & ? & _ & Hrun)).
  match type of Hrun with
  | _ ?h4 = _ => destruct (set_credentials_inv ctx _ cfg username password h4 h' Hdec Hrun)
                   as (<- & a & lo & Ha & Ho & Hh')
  end.
  (* the reads of the end, in the store the block leaves *)
  assert (Ha' : read h' cfg "authentication" = Ok a).
  { rewrite Hh'. destruct (prim_truthy username);
      rewrite !read_alter_other by discriminate; exact Ha. }
  assert (Ho' : read h' a "options" = Ok (HRef lo)).
  { rewrite Hh'. destruct (prim_truthy username);
      rewrite !read_alter_other by discriminate; exact Ho. }
  (* the options object is an object of the store *)
  assert (Hlo : lo < length h').
  { destruct (read_ref_inv _ _ _ _ Ho') as (la & oa & -> & Hoa & Hfield).
    destruct (read_ref_inv _ _ _ _ Ha') as (lc & oc & -> & Hoc & Hfielda).
    assert (Hla : length h <= la).
    { pose proof (fresh_deref h h' lc Hext Hfresh) as Hall.
      unfold deref in Hall. rewrite Hoc in Hall. simpl in Hall.
      pose proof (fresh_field h oc "authentication" Hall) as Hf.
      rewrite Hfielda in Hf. exact Hf. }
    pose proof (in_range_field h' "options" oa (Hsound la oa Hla Hoa)) as Hr.
    rewrite Hfield in Hr. exact Hr. }
  unfold credential. rewrite Ha'. cbv beta iota delta [bind].
  rewrite Ho'. cbv beta iota delta [bind].
  rewrite Hh' in Hlo |- *.
  destruct (prim_truthy username).
  - rewrite !length_alter in Hlo. split.
    + rewrite read_alter_other by discriminate. now apply read_alter_same.
    + intros _. apply read_alter_same. now rewrite length_alter.
  - rewrite length_alter in Hlo. split.
    + now apply read_alter_same.
    + discriminate.
Qed.

End PassThrough.

(** The witness of X16: the header of user jdoe on the sample store. *)
Lemma pass_through_credentials_witness :
  let (h', cfg) :=
    connectionCfg Base64.decode Sample.config0 Sample.ctx_basic Sample.heap0 in
  exists c, cfg = Ok c
    /\ credential h' c "password" = Ok (HPrim (PStr "s3cret"))
    /\ credential h' c "userName" = Ok (HPrim (PStr "jdoe")).
Proof.
  destruct (connectionCfg Base64.decode Sample.config0 Sample.ctx_basic Sample.heap0)
    as [h' [c | e]] eqn:Hrun.
  - exists c. split; [reflexivity |].
    destruct (pass_through_credentials Base64.decode Sample.config0 Sample.ctx_basic
                Sample.heap0 h' c (PStr "jdoe") (PStr "s3cret")) as [Hpw Huser].
    + reflexivity.
    + reflexivity.
    + exact Hrun.
    + split; [exact Hpw |]. apply Huser. reflexivity.
  - vm_compute in Hrun. discriminate Hrun.
Defined.

(* ------------------------------------------------------------------- *)
(** *** What pass-through credentials leave alone *)

Lemma read_app (h : heap) (o : hobj) (v : hval) (k : string) :
  in_range h v -> read (h ++ [o]) v k = read h v k.
Proof.
  destruct v as [p | l]; simpl; [reflexivity |].
  intros Hl. unfold deref. now rewrite lookup_app_l.
Qed.

Section Frames.

Variable K : list string.

Lemma frames_ret {A : Type} (a : A) : frames K (ret a).
Proof. intros h. simpl. split; [lia | reflexivity]. Qed.

Lemma frames_lift {A : Type} (r : result A) : frames K (lift r).
Proof. intros h. simpl. split; [lia | reflexivity]. Qed.

Lemma frames_read (v : hval) (k : string) : frames K (m_read v k).
Proof. intros h. simpl. split; [lia | reflexivity]. Qed.

Lemma frames_alloc (o : hobj) : frames K (m_alloc o).
Proof.
  intros h. unfold m_alloc, alloc. simpl. split.
  - rewrite length_app. lia.
  - intros v k Hv _. now apply read_app.
Qed.

Lemma frames_write (v : hval) (k : string) (x : hval) :
  In k K -> frames K (m_write v k x).
Proof.
  intros Hk h. unfold m_write, write.
  destruct v as [[| | | |] | l]; simpl; try (split; [lia | reflexivity]).
  split.
  - rewrite length_alter. lia.
  - intros v k' _ Hk'. apply read_alter_other. congruence.
Qed.

Lemma frames_seq {A B : Type} (m : M A) (k : A -> M B) :
  frames K m -> (forall a, frames K (k a)) -> frames K (seq m k).
Proof.
  intros Hm Hk h. unfold seq.
  destruct (Hm h) as [Hle Hread].
  destruct (m h) as [h' [a | e]]; simpl in *.
  - destruct (Hk a h') as [Hle' Hread']. split; [lia |].
    intros v k' Hv Hk'. rewrite Hread' by (eauto using in_range_mono).
    now apply Hread.
  - split; assumption.
Qed.

End Frames.

Ltac frames_step :=
  lazymatch goal with
  | |- frames _ (seq _ _) => apply frames_seq; [| intros ?]
  | |- frames _ (m_read _ _) => apply frames_read
  | |- frames _ (m_write _ _ _) =>
      apply frames_write; unfold credential_properties; simpl; tauto
  | |- frames _ (m_alloc _) => apply frames_alloc
  | |- frames _ (lift _) => apply frames_lift
  | |- frames _ (ret _) => apply frames_ret
  | |- frames _ (if ?b then _ else _) => destruct b
  end.

Lemma returns_ret {A : Type} (c : A) : returns c (ret c).
Proof. intros h a. simpl. congruence. Qed.

Lemma returns_seq {A B : Type} (c : B) (m : M A) (k : A -> M B) :
  (forall a, returns c (k a)) -> returns c (seq m k).
Proof.
  intros Hk h b. unfold seq. destruct (m h) as [h' [a | e]]; simpl.
  - apply Hk.
  - discriminate.
Qed.

Section Untouched.

Variable base64_text : string -> string.
Variable config : hval.

(** X17. Pass-through credentials change the credentials only.  Take the
    configuration a call builds without an authorization header, and the
    one it builds from the same store with a header: they are the same
    object, and every property other than authentication, type, options,
    password and userName, of every object of the first, reads the same in
    the second (the server, the port, the other options). *)
Theorem pass_through_changes_credentials_only ctx0 ctx (h h1 h' : heap)
    (cfg : hval) (res : result hval) :
  truthy (authorization ctx0) = false ->
  connectionCfg base64_text config ctx0 h = (h1, Ok cfg) ->
  connectionCfg base64_text config ctx h = (h', res) ->
  (forall cfg', res = Ok cfg' -> cfg' = cfg)
  /\ length h1 <= length h'
  /\ forall v k, in_range h1 v -> ~ In k credential_properties ->
       read h' v k = read h1 v k.
Proof.
  intros Hnone Hrun0 Hrun.
  unfold connectionCfg in Hrun0. rewrite Hnone in Hrun0.
  apply seq_inv in Hrun0 as (connection & h0' & Hread & Hrun0).
  apply seq_inv in Hrun0 as (c & h1' & Hcopy & Hrun0).
  apply ret_inv in Hrun0 as [Hh1 Hcfg]. subst h1' c.
  unfold connectionCfg in Hrun. unfold seq at 1 in Hrun. rewrite Hread in Hrun.
  unfold seq at 1 in Hrun. rewrite Hcopy in Hrun.
  match type of Hrun with
  | ?m _ = _ =>
      assert (Hframes : frames credential_properties m)
        by (destruct (truthy (authorization ctx)); repeat frames_step);
      assert (Hret : returns cfg m)
        by (destruct (truthy (authorization ctx));
            repeat first [apply returns_ret | apply returns_seq; intros ?])
  end.
  destruct (Hframes h1) as [Hle Hsame]. specialize (Hret h1).
  rewrite Hrun in Hle, Hsame, Hret. simpl in Hle, Hsame, Hret.
  auto.
Qed.

End Untouched.

(** The witness of X17: the server name on the sample store, with the
    header of user jdoe. *)
Lemma pass_through_changes_credentials_only_witness :
  read (fst (connectionCfg Base64.decode Sample.config0 Sample.ctx_basic Sample.heap0))
    (HRef 8) "server"
  = read (fst (connectionCfg Base64.decode Sample.config0 Sample.ctx_none Sample.heap0))
      (HRef 8) "server".
Proof.
  destruct (pass_through_changes_credentials_only Base64.decode Sample.config0
              Sample.ctx_none Sample.ctx_basic Sample.heap0
              (fst (connectionCfg Base64.decode Sample.config0 Sample.ctx_none Sample.heap0))
              (fst (connectionCfg Base64.decode Sample.config0 Sample.ctx_basic Sample.heap0))
              (HRef 8)
              (snd (connectionCfg Base64.decode Sample.config0 Sample.ctx_basic Sample.heap0)))
    as (_ & _ & Hsame).
  - reflexivity.
  - reflexivity.
  - apply surjective_pairing.
  - apply Hsame.
    + vm_compute. constructor.
    + unfold credential_properties. simpl. intuition discriminate.
Defined.

(* ------------------------------------------------------------------- *)
(** *** The authentication type of a pass-through connection *)

Lemma read_in_range (n : nat) (h : heap) (l : loc) (k : string) (v : hval) :
  sound n h -> n <= l -> read h (HRef l) k = Ok v -> in_range h v.
Proof.
  intros Hs Hl. simpl. unfold deref.
  destruct (h !! l) as [o |] eqn:Ho; simpl; intros [= <-].
  - apply in_range_field. exact (Hs l o Hl Ho).
  - exact I.
Qed.

Lemma m_copyObj_inv (v : hval) (h h' : heap) (c : hval) :
  m_copyObj v h = (h', Ok c) -> copy_rec (S (length h)) h v = Some (h', c).
Proof.
  unfold m_copyObj, copyObj.
  destruct (copy_rec (S (length h)) h v) as [[h1 c1] |]; simpl; [| discriminate].
  intros [= <- <-]. reflexivity.
Qed.

Lemma m_alloc_inv (h h' : heap) (o : hval) :
  m_alloc [] h = (h', Ok o) -> h' = h ++ [[]] /\ o = HRef (length h).
Proof. unfold m_alloc, alloc. intros [= <- <-]. auto. Qed.

Section AuthenticationType.

Variable base64_text : string -> string.
Variable config : hval.

(** X18. The authentication type of a pass-through connection.  When the
    request carries an authorization header and the connection
    configuration is built, its [authentication.type] is truthy: it is
    ['default'], or the type that the configuration built without the
    header has. *)
Theorem pass_through_authentication_type ctx0 ctx (h h1 h' : heap) (cfg cfg1 : hval) :
  truthy (authorization ctx0) = false ->
  truthy (authorization ctx) = true ->
  connectionCfg base64_text config ctx0 h = (h1, Ok cfg1) ->
  connectionCfg base64_text config ctx h = (h', Ok cfg) ->
  exists a t,
    read h' cfg "authentication" = Ok a
    /\ read h' a "type" = Ok t
    /\ hval_truthy t = true
    /\ (t = HPrim (PStr "default")
        \/ (read h1 cfg1 "authentication" = Ok a /\ read h1 a "type" = Ok t)).
Proof.
  intros Hnone Hauth Hrun0 Hrun.
  (* the configuration without the header: the copy *)
  unfold connectionCfg in Hrun0. rewrite Hnone in Hrun0.
  apply seq_inv in Hrun0 as (connection & h0' & Hread & Hrun0).
  apply seq_inv in Hrun0 as (c & h1' & Hcopy & Hrun0).
  apply ret_inv in Hrun0 as [Hh1 Hcfg]. subst h1' c.
  apply m_read_inv in Hread as [-> Hread].
  (* the copy is an object of its own, in a sound store *)
  pose proof (m_copyObj_inv _ _ _ _ Hcopy) as Hrec.
  assert (Hsound0 : sound (length h) h).
  { intros l o Hl Ho. apply lookup_lt_Some in Ho. lia. }
  destruct (copy_rec_sound (length h) _ _ _ _ _ Hsound0 Hrec) as (Hsound1 & Hrange1 & _).
  destruct (copy_rec_keeps h _ _ _ _ _ (extends_refl h) Hrec) as (Hext1 & Hfresh).
  (* the run with the header *)
  unfold connectionCfg in Hrun. rewrite Hauth in Hrun.
  apply seq_inv in Hrun as (connection' & h0' & Hread' & Hrun).
  apply m_read_inv in Hread' as [-> Hread'].
  assert (connection' = connection) as -> by congruence.
  apply seq_inv in Hrun as (c & h1' & Hcopy' & Hrun).
  rewrite Hcopy in Hcopy'. injection Hcopy' as <- <-.
  (* lines 113: authentication *)
  apply seq_inv in Hrun as (a1 & ? & Ha1 & Hrun). apply m_read_inv in Ha1 as [-> Ha1].
  apply seq_inv in Hrun as (u1 & h2 & Hif1 & Hrun).
  (* line 114: type *)
  apply seq_inv in Hrun as (a2 & ? & Ha2 & Hrun). apply m_read_inv in Ha2 as [-> Ha2].
  apply seq_inv in Hrun as (t0 & ? & Ht0 & Hrun). apply m_read_inv in Ht0 as [-> Ht0].
  apply seq_inv in Hrun as (u2 & h3 & Hif2 & Hrun).
  (* the store after line 113 *)
  assert (Hinv2 : extends h h2 /\ sound (length h) h2 /\ length h1 <= length h2).
  { destruct (hval_truthy a1); simpl in Hif1.
    - apply ret_inv in Hif1 as [-> _]. auto.
    - assert (Hk : keeps h (let* o := m_alloc [] in m_write cfg1 "authentication" o)
                     (fun _ => True)) by (repeat keeps_step).
      pose proof (keeps_sound_alloc_write (length h) cfg1 "authentication" h1 Hsound1)
        as [Hs2 Hl2].
      destruct (Hk h1 Hext1) as [He2 _].
      rewrite Hif1 in Hs2, Hl2, He2. auto. }
  destruct Hinv2 as (Hext2 & Hsound2 & Hlen12).
  (* the authentication object read at line 114 is an object of the store *)
  assert (Hrange_a2 : in_range h2 a2 /\ fresh (length h) a2).
  { destruct cfg1 as [p | lc].
    - destruct p; simpl in Ha2; try discriminate; injection Ha2 as <-; split; exact I.
    - split.
      + exact (read_in_range _ _ _ _ _ Hsound2 Hfresh Ha2).
      + simpl in Ha2. injection Ha2 as <-. apply fresh_field.
        now apply fresh_deref. }
  destruct Hrange_a2 as [Hrange_a2 Hfresh_a2].
  (* what is left of the block writes options, password and userName *)
  match type of Hrun with
  | ?m _ = _ =>
      assert (Hframes : frames ["options"; "password"; "userName"] m)
  end.
  { repeat first
      [ apply frames_seq; [| intros ?]
      | apply frames_read | apply frames_alloc | apply frames_lift | apply frames_ret
      | apply frames_write; simpl; tauto
      | match goal with |- frames _ (if ?b then _ else _) => destruct b end ]. }
  match type of Hrun with
  | ?m _ = _ =>
      assert (Hret : returns cfg1 m)
        by (repeat first [apply returns_ret | apply returns_seq; intros ?])
  end.
  specialize (Hret h3 cfg). rewrite Hrun in Hret. specialize (Hret eq_refl).
  subst cfg.
  destruct (Hframes h3) as [Hlen3 Hsame]. rewrite Hrun in Hlen3, Hsame.
  simpl in Hlen3, Hsame.
  assert (Hnot : forall k, k = "authentication" \/ k = "type" ->
                   ~ In k ["options"; "password"; "userName"]).
  { intros k [-> | ->]; simpl; intuition discriminate. }
  assert (Hrange_cfg2 : in_range h2 cfg1) by (eapply in_range_mono; eauto).
  assert (Halter : forall f l v, in_range h2 v -> in_range (alter f l h2) v).
  { intros f l v. apply in_range_mono. rewrite length_alter. lia. }
  (* line 114 itself *)
  destruct (hval_truthy t0) eqn:Htruthy; simpl in Hif2.
  - (* the type is set: kept *)
    apply ret_inv in Hif2 as [-> _].
    exists a2, t0.
    rewrite (Hsame cfg1 "authentication" Hrange_cfg2 (Hnot _ (or_introl eq_refl))).
    rewrite (Hsame a2 "type" Hrange_a2 (Hnot _ (or_intror eq_refl))).
    split; [exact Ha2 |]. split; [exact Ht0 |]. split; [exact Htruthy |].
    right.
    destruct (hval_truthy a1) eqn:Ha1t; simpl in Hif1.
    + apply ret_inv in Hif1 as [-> _]. auto.
    + (* a new authentication object has no type *)
      exfalso.
      apply seq_inv in Hif1 as (o & ? & Ho & Hw).
      apply m_alloc_inv in Ho as [-> ->].
      apply m_write_inv in Hw as (lc & -> & ->).
      simpl in Hrange1.
      rewrite read_alter_same in Ha2 by (rewrite length_app; simpl; lia).
      injection Ha2 as <-.
      simpl in Ht0. rewrite deref_alter in Ht0.
      rewrite decide_False in Ht0 by lia.
      unfold deref in Ht0. rewrite list_lookup_middle in Ht0 by reflexivity.
      simpl in Ht0. injection Ht0 as <-. discriminate Htruthy.
  - (* the type is not set: 'default' *)
    apply seq_inv in Hif2 as (a2' & ? & Ha2' & Hw). apply m_read_inv in Ha2' as [-> Ha2'].
    assert (a2' = a2) as -> by congruence.
    apply m_write_inv in Hw as (la & -> & ->).
    exists (HRef la), (HPrim (PStr "default")).
    rewrite (Hsame cfg1 "authentication" (Halter _ _ _ Hrange_cfg2)
               (Hnot _ (or_introl eq_refl))).
    rewrite (Hsame (HRef la) "type" (Halter _ _ _ Hrange_a2)
               (Hnot _ (or_intror eq_refl))).
    split; [| split; [| split; [reflexivity | left; reflexivity]]].
    + rewrite read_alter_other by discriminate. exact Ha2.
    + now apply read_alter_same.
Qed.

End AuthenticationType.

(** The witness of X18: a configuration without an authentication type. *)
Lemma pass_through_authentication_type_witness :
  exists a,
    read (fst (connectionCfg Base64.decode Sample.config0 Sample.ctx_bearer heap_no_type))
      (HRef 6) "authentication" = Ok a
    /\ read (fst (connectionCfg Base64.decode Sample.config0 Sample.ctx_bearer heap_no_type))
         a "type" = Ok (HPrim (PStr "default")).
Proof.
  destruct (pass_through_authentication_type Base64.decode Sample.config0
              Sample.ctx_none Sample.ctx_bearer heap_no_type
              (fst (connectionCfg Base64.decode Sample.config0 Sample.ctx_none heap_no_type))
              (fst (connectionCfg Base64.decode Sample.config0 Sample.ctx_bearer heap_no_type))
              (HRef 6) (HRef 6))
    as (a & t & Ha & Ht & Htruthy & [-> | [Ha1 Ht1]]).
  - reflexivity.
  - reflexivity.
  - reflexivity.
  - reflexivity.
  - exists a. split; assumption.
  - exfalso. vm_compute in Ha1. injection Ha1 as <-.
    vm_compute in Ht1. injection Ht1 as <-.
    discriminate Htruthy.
Defined.

(* ------------------------------------------------------------------- *)
(** *** The password at start-up *)

(** A write to an object leaves every property of every other value as it
    reads. *)
Lemma read_alter_elsewhere (f : hobj -> hobj) (l : loc) (h : heap) (v : hval)
    (k : string) :
  v <> HRef l -> read (alter f l h) v k = read h v k.
Proof.
  intros Hne. destruct v as [p | l']; [reflexivity |].
  simpl. rewrite deref_alter.
  destruct (decide (l = l')) as [<- | ?]; [congruence | reflexivity].
Qed.

Lemma opt_read_truthy_read (h : heap) (v : hval) (k : string) :
  hval_truthy (opt_read h v k) = true -> read h v k = Ok (opt_read h v k).
Proof.
  destruct v as [p | l]; simpl; [discriminate | reflexivity].
Qed.

Lemma opt_read_truthy_ref (h : heap) (v : hval) (k : string) :
  hval_truthy (opt_read h v k) = true -> exists l, v = HRef l /\ l < length h.
Proof.
  destruct v as [p | l]; simpl; [discriminate |].
  intros Ht. exists l. split; [reflexivity |].
  destruct (decide (l < length h)) as [Hlt | Hge]; [exact Hlt |].
  unfold deref in Ht. rewrite (lookup_ge_None_2 h l) in Ht by lia.
  discriminate Ht.
Qed.

(** X19. At start-up a configured password is replaced by the one
    [getPassword] returns, and nothing else is written: without a configured
    password the store is left as it is; with one the configuration has the
    new password, and every property of every object other than the
    password of that options object reads as before (the password of any
    other object included); no object is created.  The replacement never
    throws. *)
Theorem startup_replaces_password (sqlPassword config : hval) (h : heap) :
  let configured :=
    opt_read h (opt_read h (opt_read h (opt_read h config "connection")
                              "authentication") "options") "password" in
  let h' := fst (startup sqlPassword config h) in
  snd (startup sqlPassword config h) = Ok tt
  /\ (hval_truthy configured = false -> h' = h)
  /\ (hval_truthy configured = true ->
      credential h' (opt_read h' config "connection") "password" = Ok sqlPassword)
  /\ (forall v k,
        ~ (v = opt_read h (opt_read h (opt_read h config "connection")
                             "authentication") "options"
           /\ k = "password") ->
        read h' v k = read h v k)
  /\ length h' = length h.
Proof.
  cbv zeta. unfold startup.
  destruct (hval_truthy (opt_read h (opt_read h (opt_read h (opt_read h config
              "connection") "authentication") "options") "password")) eqn:Hc.
  - destruct (opt_read_truthy_ref _ _ _ Hc) as (lo & Ho & Hlo).
    assert (Hto : hval_truthy (opt_read h (opt_read h (opt_read h config "connection")
                    "authentication") "options") = true) by (rewrite Ho; reflexivity).
    destruct (opt_read_truthy_ref _ _ _ Hto) as (la & Ha & Hla).
    assert (Hta : hval_truthy (opt_read h (opt_read h config "connection")
                    "authentication") = true) by (rewrite Ha; reflexivity).
    destruct (opt_read_truthy_ref _ _ _ Hta) as (lc & Hcn & Hlc).
    assert (Htc : hval_truthy (opt_read h config "connection") = true)
      by (rewrite Hcn; reflexivity).
    pose proof (opt_read_truthy_read _ _ _ Htc) as Rc.
    pose proof (opt_read_truthy_read _ _ _ Hta) as Ra.
    pose proof (opt_read_truthy_read _ _ _ Hto) as Ro.
    unfold seq, m_read, m_write. rewrite Rc, Ra, Ro, Ho. simpl write. simpl fst. simpl snd.
    assert (Hconn : opt_read (alter (field_set "password" sqlPassword) lo h) config
                      "connection" = opt_read h config "connection").
    { pose proof (read_alter_other "password" "connection" sqlPassword lo h config
                    ltac:(discriminate)) as Hr.
      destruct (opt_read_truthy_ref _ _ _ Htc) as (l0 & -> & _).
      simpl in Hr. simpl. congruence. }
    split; [reflexivity |]. split; [discriminate |]. split; [| split].
    + intros _. unfold credential. rewrite Hconn.
      rewrite read_alter_other by discriminate. rewrite Ra.
      cbv beta iota delta [bind].
      rewrite read_alter_other by discriminate. rewrite Ro, Ho.
      cbv beta iota delta [bind].
      now apply read_alter_same.
    + intros v k Hn.
      destruct (decide (k = "password")) as [-> | Hk].
      * apply read_alter_elsewhere. intros ->. apply Hn. split; reflexivity.
      * now apply read_alter_other.
    + apply length_alter.
  - simpl. split; [reflexivity |]. split; [reflexivity |]. split; [discriminate |].
    split; reflexivity.
Qed.

(** The witness of X19: the sample store, whose password is configured. *)
Lemma startup_replaces_password_witness :
  credential (fst (startup (HPrim (PStr "decrypted")) Sample.config0 Sample.heap0))
    (HRef 1) "password"
  = Ok (HPrim (PStr "decrypted"))
  /\ read (fst (startup (HPrim (PStr "decrypted")) Sample.config0 Sample.heap0))
       (HRef 3) "userName"
     = Ok (HPrim (PStr "sa")).
Proof.
  destruct (startup_replaces_password (HPrim (PStr "decrypted")) Sample.config0
              Sample.heap0) as (_ & _ & Hpw & Hother & _).
  split.
  - apply Hpw. reflexivity.
  - rewrite Hother.
    + reflexivity.
    + intros [_ Hk]. discriminate Hk.
Defined.
